(** * pgbouncer-config-reload: a shallow embedding of [cli.py]

    The program watches directories for the [..data] marker that an atomic
    config projection creates and then sends [RELOAD;] to pgbouncer's admin
    console.  This development embeds [ConfigmapHandler], [run] and the
    log-level computation of [main] as functions over an explicit world, and
    proves the properties stated about them.

    Layout: the Python runtime fragment (exceptions, a state-and-exception
    monad with [try]/[except]/[finally]), the external calls (logging, time,
    psycopg2, watchdog), the translated source, then the theorems. *)

From Stdlib Require Import ZArith List String Ascii Bool Lia.
Import ListNotations.

Local Open Scope string_scope.
Local Open Scope Z_scope.

(** ** Python runtime fragment *)

Module Py.

(** Exception classes the program can meet.  [Psycopg2Error] and
    [BuiltinException] (ValueError, TypeError, OSError, ...) derive from
    [Exception]; [KeyboardInterrupt] and [SystemExit] derive from
    [BaseException] only. *)
Inductive exn_class :=
| Psycopg2Error
| BuiltinException
| KeyboardInterrupt
| SystemExit.

Record exn := Exn { cls : exn_class; str : string }.

Definition isinstance_Exception (c : exn_class) : bool :=
  match c with
  | Psycopg2Error | BuiltinException => true
  | KeyboardInterrupt | SystemExit => false
  end.

Definition isinstance_psycopg2_Error (c : exn_class) : bool :=
  match c with
  | Psycopg2Error => true
  | _ => false
  end.

Definition isinstance_KeyboardInterrupt (c : exn_class) : bool :=
  match c with
  | KeyboardInterrupt => true
  | _ => false
  end.

(** A value argparse hands over: the declared default (an int) or the text
    given on the command line or in the environment. *)
Inductive pyval :=
| PyInt (z : Z)
| PyStr (s : string).

(** Result of running a piece of code: it returns, it raises, or it is
    still running when the fuel given to an unbounded loop is used up. *)
Inductive outcome (A : Type) :=
| Ret (a : A)
| Raise (e : exn)
| Pending.
Arguments Ret {A} a.
Arguments Raise {A} e.
Arguments Pending {A}.

(** [str.split(sep)] for a one-character separator: never empty. *)
Fixpoint split (sep : ascii) (s : string) : list string :=
  match s with
  | EmptyString => [EmptyString]
  | String c r =>
      if Ascii.eqb c sep then EmptyString :: split sep r
      else match split sep r with
           | h :: t => String c h :: t
           | [] => [String c EmptyString]
           end
  end.

(** [s.rfind(c)] for a one-character needle: the highest index holding
    [c], or -1. *)
Fixpoint rfind_from (c : ascii) (s : string) (i last : Z) : Z :=
  match s with
  | EmptyString => last
  | String a r => rfind_from c r (i + 1) (if Ascii.eqb a c then i else last)
  end.

Definition rfind (c : ascii) (s : string) : Z := rfind_from c s 0 (-1).

(** [s[i:]] for [0 <= i]. *)
Fixpoint drop (n : nat) (s : string) : string :=
  match n, s with
  | O, _ => s
  | S n', String _ r => drop n' r
  | S _, EmptyString => EmptyString
  end.

Definition slice_from (i : Z) (s : string) : string := drop (Z.to_nat i) s.

(** [posixpath.basename]: [i = p.rfind('/') + 1; return p[i:]]. *)
Definition basename (p : string) : string :=
  let i := rfind "/"%char p + 1 in
  slice_from i p.

Definition startswith (s pre : string) : bool := String.prefix pre s.

End Py.
Import Py.

(** ** The world outside the process *)

(** Levels of the [logging] module with their numbers. *)
Inductive level := DEBUG | INFO | WARNING | ERROR.

Definition levelno (l : level) : Z :=
  match l with
  | DEBUG => 10
  | INFO => 20
  | WARNING => 30
  | ERROR => 40
  end.

(** Keyword arguments of [psycopg2.connect]. *)
Record dsn := Dsn {
  dsn_user : string;
  dsn_password : string;
  dsn_host : string;
  dsn_port : pyval;
  dsn_database : string
}.

(** The fallible psycopg2 operations of one connection attempt. *)
Inductive db_op := OpConnect | OpSetIsolation | OpCursor | OpExecute | OpCommit.

(** Calls that leave the process.  Connections are named by the number of
    the attempt that opened them. *)
Inductive call :=
| psycopg2_connect (d : dsn)
| set_isolation_level (conn : nat) (lvl : Z)
| connection_cursor (conn : nat)
| cursor_execute (conn : nat) (sql : string)
| connection_commit (conn : nat)
| cursor_close (conn : nat)
| connection_close (conn : nat)
| time_sleep (secs : Z)
| observer_schedule (path : string) (recursive : bool)
| observer_start
| observer_stop
| observer_join.

(** What an observer of the process sees: calls to the logger (before the
    level filter set up in [main]) and external calls with their result. *)
Inductive action :=
| Log (lvl : level) (msg : string)
| Call (c : call) (err : option exn).

(** Trace entries carry the clock value at which they happened. *)
Definition entry : Type := Z * action.

Inductive signal := SIGINT | SIGTERM.

Definition signal_name (s : signal) : string :=
  match s with
  | SIGINT => "SIGINT"
  | SIGTERM => "SIGTERM"
  end.

(** What can end a [time.sleep(1)] of the idle loop early: a signal whose
    handler is [exit_signal_handler], or a plain interrupt. *)
Inductive interrupt :=
| Signalled (s : signal)
| Interrupted.

(** A failure of a psycopg2 call: one of the driver's own errors
    (OperationalError, InterfaceError, ...: all [psycopg2.Error]) or another
    [Exception] raised on the way (TypeError for a bad argument, ...). *)
Inductive fault :=
| DriverError (msg : string)
| OtherError (msg : string).

Definition exn_of_fault (f : fault) : exn :=
  match f with
  | DriverError msg => Exn Psycopg2Error msg
  | OtherError msg => Exn BuiltinException msg
  end.

(** Everything the program asks of its surroundings.  [db_fault n op] is the
    error, if any, that operation [op] of connection attempt [n] runs into;
    [isdir] is [os.path.isdir]; [int_of_str] is [int()] on a string, with
    the message of the ValueError when it does not parse; [interrupts k] is
    what arrives during the [k]-th sleep of the idle loop. *)
Record env := Env {
  db_fault : nat -> db_op -> option fault;
  isdir : string -> bool;
  int_of_str : string -> Z + string;
  interrupts : nat -> option interrupt
}.

(** State of the surroundings as far as the program changes it.  [clock] is
    the time slept so far, in seconds: [time.sleep] never returns early, so
    it bounds elapsed time from below. *)
Record world := World {
  clock : Z;
  next_conn : nat;
  open_conns : list nat;
  watches : list string;
  observing : bool
}.

Definition world0 : world :=
  {| clock := 0; next_conn := 0%nat; open_conns := [];
     watches := []; observing := false |}.

(** The world [secs] seconds of sleep later. *)
Definition elapse (secs : Z) (w : world) : world :=
  {| clock := clock w + secs; next_conn := next_conn w;
     open_conns := open_conns w; watches := watches w;
     observing := observing w |}.

(** [int(v)] as a value: the integer, or the message of the ValueError. *)
Definition int_value (E : env) (v : pyval) : Z + string :=
  match v with
  | PyInt z => inl z
  | PyStr s => int_of_str E s
  end.

(** ** State, exceptions and local variables *)

(** A computation runs in a frame of local variables [L] and a world; it
    yields an outcome, the frame and the world it leaves, and the trace
    entries it produced, oldest first. *)
Record result (L A : Type) := Result {
  out : outcome A;
  frame : L;
  after : world;
  emitted : list entry
}.
Arguments Result {L A} out frame after emitted.
Arguments out {L A} r.
Arguments frame {L A} r.
Arguments after {L A} r.
Arguments emitted {L A} r.

Definition M (L A : Type) : Type := L -> world -> result L A.

Definition ret {L A} (a : A) : M L A :=
  fun l w => Result (Ret a) l w [].

Definition raise {L A} (e : exn) : M L A :=
  fun l w => Result (Raise e) l w [].

Definition pending {L A} : M L A :=
  fun l w => Result Pending l w [].

Definition bind {L A B} (m : M L A) (k : A -> M L B) : M L B :=
  fun l w =>
    match m l w with
    | Result (Ret a) l1 w1 tr1 =>
        match k a l1 w1 with
        | Result o l2 w2 tr2 => Result o l2 w2 (tr1 ++ tr2)
        end
    | Result (Raise e) l1 w1 tr1 => Result (Raise e) l1 w1 tr1
    | Result Pending l1 w1 tr1 => Result Pending l1 w1 tr1
    end.

Declare Scope py_scope.
Delimit Scope py_scope with py.
Notation "x <- m ;; k" := (bind m (fun x => k))
  (at level 100, m at next level, right associativity) : py_scope.
Notation "m ;; k" := (bind m (fun _ => k))
  (at level 100, right associativity) : py_scope.
Local Open Scope py_scope.

(** [try: body  except <classes> as e: handler e]. *)
Definition try_except {L A} (body : M L A) (classes : exn_class -> bool)
    (handler : exn -> M L A) : M L A :=
  fun l w =>
    match body l w with
    | Result (Raise e) l1 w1 tr1 =>
        if classes (cls e) then
          match handler e l1 w1 with
          | Result o l2 w2 tr2 => Result o l2 w2 (tr1 ++ tr2)
          end
        else Result (Raise e) l1 w1 tr1
    | r => r
    end.

(** [try: body  finally: fin].  The cleanup runs when the body has returned
    or raised; an exception of the cleanup replaces the body's outcome. *)
Definition try_finally {L A} (body : M L A) (fin : M L unit) : M L A :=
  fun l w =>
    match body l w with
    | Result Pending l1 w1 tr1 => Result Pending l1 w1 tr1
    | Result o l1 w1 tr1 =>
        match fin l1 w1 with
        | Result (Ret _) l2 w2 tr2 => Result o l2 w2 (tr1 ++ tr2)
        | Result (Raise e) l2 w2 tr2 => Result (Raise e) l2 w2 (tr1 ++ tr2)
        | Result Pending l2 w2 tr2 => Result Pending l2 w2 (tr1 ++ tr2)
        end
    end.

(** Calling a function: it runs in a frame of its own. *)
Definition invoke {L L' A} (locals : L') (f : M L' A) : M L A :=
  fun l w =>
    match f locals w with
    | Result o _ w1 tr1 => Result o l w1 tr1
    end.

Definition get_local {L A} (proj : L -> A) : M L A :=
  fun l w => Result (Ret (proj l)) l w [].

Definition set_local {L} (upd : L -> L) : M L unit :=
  fun l w => Result (Ret tt) (upd l) w [].

(** [for x in xs: body x]. *)
Fixpoint for_each {L A} (xs : list A) (body : A -> M L unit) : M L unit :=
  match xs with
  | [] => ret tt
  | x :: rest => body x ;; for_each rest body
  end.

(** ** External calls *)

Section Externals.

Variable E : env.
Context {L : Type}.

Definition emit (a : action) : M L unit :=
  fun l w => Result (Ret tt) l w [(clock w, a)].

Definition log (lvl : level) (msg : string) : M L unit := emit (Log lvl msg).

(** [time.sleep(secs)] that nothing interrupts: a negative length is a
    ValueError, otherwise the clock moves on by [secs].  CPython also
    refuses a length its clock cannot hold (OSError or OverflowError, from
    about 9.2e9 seconds on); that limit is not modelled, and a statement
    that needs the sleep to return says so in a hypothesis. *)
Definition sleep (secs : Z) : M L unit :=
  fun l w =>
    if secs <? 0 then
      let e := Exn BuiltinException "sleep length must be non-negative" in
      Result (Raise e) l w [(clock w, Call (time_sleep secs) (Some e))]
    else
      Result (Ret tt) l (elapse secs w)
        [(clock w, Call (time_sleep secs) None)].

(** [psycopg2.connect(...)]: every attempt takes the next number; a
    successful one is open from then on. *)
Definition connect (d : dsn) : M L nat :=
  fun l w =>
    let n := next_conn w in
    match db_fault E n OpConnect with
    | Some f =>
        Result (Raise (exn_of_fault f)) l
          {| clock := clock w; next_conn := S n;
             open_conns := open_conns w; watches := watches w;
             observing := observing w |}
          [(clock w, Call (psycopg2_connect d) (Some (exn_of_fault f)))]
    | None =>
        Result (Ret n) l
          {| clock := clock w; next_conn := S n;
             open_conns := n :: open_conns w; watches := watches w;
             observing := observing w |}
          [(clock w, Call (psycopg2_connect d) None)]
    end.

(** An operation on an open connection or its cursor. *)
Definition db_call (conn : nat) (op : db_op) (c : call) : M L unit :=
  fun l w =>
    match db_fault E conn op with
    | Some f =>
        Result (Raise (exn_of_fault f)) l w
          [(clock w, Call c (Some (exn_of_fault f)))]
    | None => Result (Ret tt) l w [(clock w, Call c None)]
    end.

(** [cursor.close()] on a client-side cursor only marks it closed. *)
Definition close_cursor (conn : nat) : M L unit :=
  emit (Call (cursor_close conn) None).

(** [connection.close()] gives the connection back. *)
Definition close_connection (conn : nat) : M L unit :=
  fun l w =>
    Result (Ret tt) l
      {| clock := clock w; next_conn := next_conn w;
         open_conns := remove Nat.eq_dec conn (open_conns w);
         watches := watches w; observing := observing w |}
      [(clock w, Call (connection_close conn) None)].

(** [observer.schedule(handler, path, recursive=...)]. *)
Definition schedule (path : string) (recursive : bool) : M L unit :=
  fun l w =>
    Result (Ret tt) l
      {| clock := clock w; next_conn := next_conn w;
         open_conns := open_conns w; watches := watches w ++ [path];
         observing := observing w |}
      [(clock w, Call (observer_schedule path recursive) None)].

Definition set_observing (b : bool) (c : call) : M L unit :=
  fun l w =>
    Result (Ret tt) l
      {| clock := clock w; next_conn := next_conn w;
         open_conns := open_conns w; watches := watches w;
         observing := b |}
      [(clock w, Call c None)].

(** [int(v)]. *)
Definition int (v : pyval) : M L Z :=
  match int_value E v with
  | inl z => ret z
  | inr msg => raise (Exn BuiltinException msg)
  end.

End Externals.

(** ** The source, function by function *)

Module Cli.

(** Attributes set by [ConfigmapHandler.__init__]. *)
Record ConfigmapHandler := Handler {
  host : string;
  port : pyval;
  user : string;
  password : string;
  database : string;
  timeout : Z
}.

(** [__init__(self, host, port, user, password, database='pgbouncer',
    timeout=10)]: an argument left out takes its default. *)
Definition init (host_ : string) (port_ : pyval) (user_ password_ : string)
    (database_ : option string) (timeout_ : option Z) : ConfigmapHandler :=
  {| host := host_;
     port := port_;
     user := user_;
     password := password_;
     database := match database_ with Some d => d | None => "pgbouncer" end;
     timeout := match timeout_ with Some t => t | None => 10 end |}.

(** The events watchdog delivers. *)
Inductive event_kind := created | modified | deleted | moved | closed | opened.

Record FileSystemEvent := Event {
  event_type : event_kind;
  src_path : string;
  is_directory : bool
}.

(** Locals of [pgbouncer_reload] that its [finally] block reads. *)
Record reload_locals := Locals {
  connection : option nat;
  cursor : option nat
}.

(** The namespace [parse_args] returns. *)
Record args := Args {
  verbose : Z;
  config_path : string;
  pgbouncer_host : string;
  pgbouncer_port : pyval;
  pgbouncer_user : string;
  pgbouncer_password : string;
  pgbouncer_database : string;
  pgbouncer_reload_timeout : pyval;
  json_log : bool
}.

(** The tuple of [except (Exception, psycopg2.Error)]. *)
Definition reload_except (c : exn_class) : bool :=
  isinstance_Exception c || isinstance_psycopg2_Error c.

Section WithEnv.

Variable E : env.

Definition pgbouncer_reload (self : ConfigmapHandler) : M reload_locals unit :=
  log DEBUG "Pgbouncer graceful reload starting...";;
  set_local (fun l => {| connection := None; cursor := cursor l |});;
  set_local (fun l => {| connection := connection l; cursor := None |});;
  try_finally
    (try_except
       (c <- connect E {| dsn_user := user self;
                          dsn_password := password self;
                          dsn_host := host self;
                          dsn_port := port self;
                          dsn_database := database self |};;
        set_local (fun l => {| connection := Some c; cursor := cursor l |});;
        db_call E c OpSetIsolation (set_isolation_level c 0);;
        db_call E c OpCursor (connection_cursor c);;
        set_local (fun l => {| connection := connection l; cursor := Some c |});;
        db_call E c OpExecute (cursor_execute c "RELOAD;");;
        db_call E c OpCommit (connection_commit c))
       reload_except
       (fun error => log ERROR ("Failed to RELOAD pgbouncer: " ++ str error)))
    (cur <- get_local cursor;;
     match cur with
     | Some c => close_cursor c
     | None => ret tt
     end;;
     conn <- get_local connection;;
     match conn with
     | Some c =>
         close_connection c;;
         log DEBUG "Pgbouncer connection is closed";;
         log INFO "Pgbouncer gracefully reloaded."
     | None => ret tt
     end).

Definition on_created (self : ConfigmapHandler) (event : FileSystemEvent)
  : M unit unit :=
  if negb (is_directory event) then
    log INFO ("CREATE event: '" ++ src_path event ++ "'");;
    if startswith (basename (src_path event)) "..data" then
      sleep (timeout self);;
      invoke {| connection := None; cursor := None |} (pgbouncer_reload self)
    else ret tt
  else ret tt.

(** [FileSystemEventHandler.dispatch], inherited: an event goes to the
    method of its kind, and only [on_created] is overridden. *)
Definition dispatch (self : ConfigmapHandler) (event : FileSystemEvent)
  : M unit unit :=
  match event_type event with
  | created => on_created self event
  | _ => ret tt
  end.

(** The observer's thread: it hands the queued events to the handler one
    after the other, and an exception that leaves the handler ends it. *)
Definition dispatch_events (self : ConfigmapHandler)
    (events : list FileSystemEvent) : M unit unit :=
  for_each events (dispatch self).

(** [exit_signal_handler(signum, frame)]. *)
Definition exit_signal_handler (signum : signal) : M unit unit :=
  log INFO ("Signal '" ++ signal_name signum ++ "' received. Shutting down...");;
  raise (Exn SystemExit "").

(** One [time.sleep(1)] of the idle loop, the [k]-th.  A signal runs its
    handler inside the sleep, and what the handler raises leaves the sleep;
    a sleep cut short is not entered in the trace. *)
Definition idle_sleep (k : nat) : M unit unit :=
  match interrupts E k with
  | None => sleep 1
  | Some (Signalled s) =>
      exit_signal_handler s
  | Some Interrupted => raise (Exn KeyboardInterrupt "")
  end.

(** [while True: time.sleep(1)], cut off after [fuel] rounds. *)
Fixpoint idle_loop (fuel k : nat) : M unit unit :=
  match fuel with
  | O => pending
  | S fuel' => idle_sleep k;; idle_loop fuel' (S k)
  end.

(** [run], up to and including the log line before the idle loop. *)
Definition run_setup (a : args) : M unit ConfigmapHandler :=
  t <- int E (pgbouncer_reload_timeout a);;
  let event_handler :=
    init (pgbouncer_host a) (pgbouncer_port a) (pgbouncer_user a)
         (pgbouncer_password a) (Some (pgbouncer_database a)) (Some t) in
  for_each (split ";"%char (config_path a))
    (fun path =>
       if isdir E path then
         log INFO ("Watching path: " ++ path);;
         schedule path true
       else
         log WARNING ("Path '" ++ path ++
                      "' is not a directory or does not exist. Skipping..."));;
  set_observing true observer_start;;
  log INFO "Entering event loop...";;
  ret event_handler.

Definition run (a : args) (fuel : nat) : M unit unit :=
  run_setup a;;
  try_finally
    (try_except (idle_loop fuel 0) isinstance_KeyboardInterrupt
       (fun _ => ret tt))
    (set_observing false observer_stop;;
     emit (Call observer_join None)).

End WithEnv.

(** [main]: the level given to [log.setLevel]. *)
Definition loglvl (verbose_ : Z) : Z :=
  let loglvl := levelno ERROR in
  if verbose_ >? 0 then Z.max (levelno ERROR - 10 * verbose_) (levelno DEBUG)
  else loglvl.

End Cli.
Import Cli.

(** ** Vocabulary of the statements *)

Definition actions (tr : list entry) : list action := map snd tr.

(** The first thing [pgbouncer_reload] does is to log this line, and nothing
    else logs it: it marks an invocation. *)
Definition is_reload_start (a : action) : bool :=
  match a with
  | Log DEBUG msg => String.eqb msg "Pgbouncer graceful reload starting..."
  | _ => false
  end.

Definition is_connect (a : action) : bool :=
  match a with
  | Call (psycopg2_connect _) _ => true
  | _ => false
  end.

Definition is_sleep (secs : Z) (a : action) : bool :=
  match a with
  | Call (time_sleep s) None => Z.eqb s secs
  | _ => false
  end.

Definition is_call (a : action) : bool :=
  match a with
  | Call _ _ => true
  | Log _ _ => false
  end.

Definition count (p : action -> bool) (tr : list entry) : nat :=
  List.length (filter p (actions tr)).

Definition reload_calls (tr : list entry) : nat := count is_reload_start tr.
Definition connect_attempts (tr : list entry) : nat := count is_connect tr.
Definition sleeps (secs : Z) (tr : list entry) : nat := count (is_sleep secs) tr.

(** The external calls of a trace, in order. *)
Definition calls (tr : list entry) : list action := filter is_call (actions tr).

(** An event that passes the filter of [on_created]. *)
Definition qualifying (ev : FileSystemEvent) : bool :=
  negb (is_directory ev) && startswith (basename (src_path ev)) "..data".

Definition create_log (ev : FileSystemEvent) : action :=
  Log INFO ("CREATE event: '" ++ src_path ev ++ "'").

Definition no_locals : reload_locals := {| connection := None; cursor := None |}.

(** An event that makes the handler reload: a creation event that passes
    the filter. *)
Definition triggers (ev : FileSystemEvent) : bool :=
  match event_type ev with
  | created => qualifying ev
  | _ => false
  end.

Definition triggering (events : list FileSystemEvent) : nat :=
  List.length (filter triggers events).

Definition dsn_of (self : ConfigmapHandler) : dsn :=
  {| dsn_user := user self;
     dsn_password := password self;
     dsn_host := host self;
     dsn_port := port self;
     dsn_database := database self |}.

(** The operations a reload is to perform on connection [n], in order. *)
Definition reload_script (d : dsn) (n : nat) : list (db_op * call) :=
  [ (OpConnect, psycopg2_connect d);
    (OpSetIsolation, set_isolation_level n 0);
    (OpCursor, connection_cursor n);
    (OpExecute, cursor_execute n "RELOAD;");
    (OpCommit, connection_commit n) ].

(** A script carried out up to and including its first failing step. *)
Fixpoint perform (E : env) (n : nat) (script : list (db_op * call)) : list action :=
  match script with
  | [] => []
  | (op, c) :: rest =>
      match db_fault E n op with
      | Some f => [Call c (Some (exn_of_fault f))]
      | None => Call c None :: perform E n rest
      end
  end.

(** The first step of attempt [n] that fails, with its error. *)
Fixpoint first_fault_in (E : env) (n : nat) (ops : list db_op) : option (db_op * fault) :=
  match ops with
  | [] => None
  | op :: rest =>
      match db_fault E n op with
      | Some f => Some (op, f)
      | None => first_fault_in E n rest
      end
  end.

Definition first_fault (E : env) (n : nat) : option (db_op * fault) :=
  first_fault_in E n [OpConnect; OpSetIsolation; OpCursor; OpExecute; OpCommit].

Definition succeeds (E : env) (n : nat) (op : db_op) : bool :=
  match db_fault E n op with
  | Some _ => false
  | None => true
  end.

(** What the cleanup phase owes: the cursor is closed when one was obtained,
    the connection when it was opened. *)
Definition cleanup (E : env) (n : nat) : list action :=
  (if succeeds E n OpConnect && succeeds E n OpSetIsolation && succeeds E n OpCursor
   then [Call (cursor_close n) None] else [])
  ++ (if succeeds E n OpConnect then [Call (connection_close n) None] else []).

Definition failure_log (f : fault) : action :=
  Log ERROR ("Failed to RELOAD pgbouncer: " ++ str (exn_of_fault f)).

Definition success_log : action := Log INFO "Pgbouncer gracefully reloaded.".

(** Concrete surroundings for the examples: no fault anywhere and one
    directory; and a console that fails the first RELOAD and refuses the
    second connection. *)
Definition calm_env : env :=
  {| db_fault := fun _ _ => None;
     isdir := fun p => String.eqb p "/etc/pgbouncer";
     int_of_str := fun _ => inr "invalid literal for int() with base 10";
     interrupts := fun _ => None |}.

Definition flaky_env : env :=
  {| db_fault := fun n op =>
       match n, op with
       | O, OpExecute => Some (DriverError "server closed the connection")
       | S O, OpConnect => Some (DriverError "connection refused")
       | _, _ => None
       end;
     isdir := fun p => String.eqb p "/etc/pgbouncer";
     int_of_str := fun _ => inr "invalid literal for int() with base 10";
     interrupts := fun _ => None |}.

Definition handler0 : ConfigmapHandler :=
  init "localhost" (PyInt 6432) "pgbouncer" "secret" None None.

Definition marker_event : FileSystemEvent :=
  {| event_type := created; src_path := "/etc/pgbouncer/..data_tmp";
     is_directory := false |}.

Definition plain_event : FileSystemEvent :=
  {| event_type := created; src_path := "/etc/pgbouncer/pgbouncer.ini";
     is_directory := false |}.

Definition watch_log (path : string) : action :=
  Log INFO ("Watching path: " ++ path).

Definition skip_log (path : string) : action :=
  Log WARNING ("Path '" ++ path ++
               "' is not a directory or does not exist. Skipping...").

(** What the loop over the configured paths does for one path. *)
Definition watch_actions (E : env) (path : string) : list action :=
  if isdir E path then [watch_log path; Call (observer_schedule path true) None]
  else [skip_log path].

Definition stamped (t : Z) (acts : list action) : list entry := map (pair t) acts.

(** The paths [run] walks over. *)
Definition watch_paths (a : args) : list string := split ";"%char (config_path a).

Definition args0 (paths : string) : args :=
  {| verbose := 0; config_path := paths; pgbouncer_host := "localhost";
     pgbouncer_port := PyInt 6432; pgbouncer_user := "pgbouncer";
     pgbouncer_password := "secret"; pgbouncer_database := "pgbouncer";
     pgbouncer_reload_timeout := PyInt 10; json_log := false |}.

(** ** Vocabulary of the further properties *)

(** [c in s] for a character. *)
Fixpoint contains (c : ascii) (s : string) : bool :=
  match s with
  | EmptyString => false
  | String a r => Ascii.eqb a c || contains c r
  end.

(** The highest index of [s] that holds [c], if any. *)
Fixpoint last_index (c : ascii) (s : string) : option nat :=
  match s with
  | EmptyString => None
  | String a r =>
      match last_index c r with
      | Some k => Some (S k)
      | None => if Ascii.eqb a c then Some O else None
      end
  end.

(** [sep.join(pieces)] for a one-character separator. *)
Fixpoint join (sep : ascii) (pieces : list string) : string :=
  match pieces with
  | [] => EmptyString
  | [x] => x
  | x :: rest => x ++ String sep (join sep rest)
  end.

(** What [time.sleep] raises for a negative length. *)
Definition sleep_error : exn :=
  Exn BuiltinException "sleep length must be non-negative".

Definition is_execute (a : action) : bool :=
  match a with
  | Call (cursor_execute _ _) _ => true
  | _ => false
  end.

Definition is_commit (a : action) : bool :=
  match a with
  | Call (connection_commit _) _ => true
  | _ => false
  end.

(** Connection numbers are handed out in order: the open ones are below the
    next one. *)
Definition fresh_conns (w : world) : Prop :=
  forall c, In c (open_conns w) -> (c < next_conn w)%nat.

(** [Logger.isEnabledFor]: a record of level [lvl] passes a logger set to
    [logger_level] when its number is not below that level. *)
Definition isEnabledFor (logger_level : Z) (lvl : level) : bool :=
  logger_level <=? levelno lvl.

(** The log records of a trace that reach the handler when [main] was run
    with the given verbosity count. *)
Definition shown (verbose_ : Z) (tr : list entry) : list action :=
  filter (fun a => match a with
                   | Log lvl _ => isEnabledFor (loglvl verbose_) lvl
                   | Call _ _ => false
                   end)
         (actions tr).

(** The trace of [run] before the idle loop. *)
Definition setup_actions (E : env) (a : args) : list action :=
  flat_map (watch_actions E) (watch_paths a)
  ++ [Call observer_start None; Log INFO "Entering event loop..."].

(** What an interrupt of the idle loop raises in the main thread. *)
Definition raised_by (i : interrupt) : exn :=
  match i with
  | Signalled _ => Exn SystemExit ""
  | Interrupted => Exn KeyboardInterrupt ""
  end.

Definition signal_log (s : signal) : action :=
  Log INFO ("Signal '" ++ signal_name s ++ "' received. Shutting down...").

(** Surroundings in which signal [s] arrives during the sleep numbered [k]
    of the idle loop, and nothing before. *)
Definition signal_env (k : nat) (i : interrupt) : env :=
  {| db_fault := fun _ _ => None;
     isdir := fun p => String.eqb p "/etc/pgbouncer";
     int_of_str := fun _ => inr "invalid literal for int() with base 10";
     interrupts := fun j => if Nat.eqb j k then Some i else None |}.

(** How [time.sleep(secs)] ends, which does not depend on the world it is
    called in. *)
Definition sleep_outcome (secs : Z) : outcome unit :=
  out (sleep (L := unit) secs tt world0).

(** A handler like [handler0], but with a negative timeout. *)
Definition negative_handler : ConfigmapHandler :=
  init "localhost" (PyInt 6432) "pgbouncer" "secret" None (Some (-5)).

(** ** Auxiliary facts *)

Lemma count_app p tr1 tr2 : count p (tr1 ++ tr2) = (count p tr1 + count p tr2)%nat.
Proof.
  unfold count, actions. now rewrite map_app, filter_app, length_app.
Qed.

(** The model on small inputs. *)

Example basename_marker : basename "/etc/pgbouncer/..data_tmp" = "..data_tmp".
Proof. reflexivity. Qed.

Example basename_no_slash : basename "..data" = "..data".
Proof. reflexivity. Qed.

Example basename_trailing_slash : basename "/etc/pgbouncer/" = "".
Proof. reflexivity. Qed.

Example split_two :
  split ";" "/etc/pgbouncer;/etc/userlist" = ["/etc/pgbouncer"; "/etc/userlist"].
Proof. reflexivity. Qed.

Example split_empty : split ";" "" = [""].
Proof. reflexivity. Qed.

Example split_trailing : split ";" "/etc/pgbouncer;" = ["/etc/pgbouncer"; ""].
Proof. reflexivity. Qed.

Example loglvl_table : map loglvl [0; 1; 2; 3; 4; 5] = [40; 30; 20; 10; 10; 10].
Proof. reflexivity. Qed.

Example on_created_marker_run :
  actions (emitted (on_created calm_env handler0 marker_event tt world0)) =
    [ Log INFO "CREATE event: '/etc/pgbouncer/..data_tmp'";
      Call (time_sleep 10) None;
      Log DEBUG "Pgbouncer graceful reload starting...";
      Call (psycopg2_connect (dsn_of handler0)) None;
      Call (set_isolation_level 0 0) None;
      Call (connection_cursor 0) None;
      Call (cursor_execute 0 "RELOAD;") None;
      Call (connection_commit 0) None;
      Call (cursor_close 0) None;
      Call (connection_close 0) None;
      Log DEBUG "Pgbouncer connection is closed";
      Log INFO "Pgbouncer gracefully reloaded." ].
Proof. reflexivity. Qed.

Example on_created_negative_timeout :
  out (on_created calm_env
         (init "localhost" (PyInt 6432) "pgbouncer" "secret" None (Some (-1)))
         marker_event tt world0) =
    Raise (Exn BuiltinException "sleep length must be non-negative").
Proof. reflexivity. Qed.

Example run_until_sigterm :
  let E := {| db_fault := fun _ _ => None;
              isdir := fun _ => true;
              int_of_str := fun _ => inl 10;
              interrupts := fun k => if Nat.eqb k 1 then Some (Signalled SIGTERM)
                                     else None |} in
  out (run E (args0 "/etc/pgbouncer") 5 tt world0) = Raise (Exn SystemExit "") /\
  actions (emitted (run E (args0 "/etc/pgbouncer") 5 tt world0)) =
    [ Log INFO "Watching path: /etc/pgbouncer";
      Call (observer_schedule "/etc/pgbouncer" true) None;
      Call observer_start None;
      Log INFO "Entering event loop...";
      Call (time_sleep 1) None;
      Log INFO "Signal 'SIGTERM' received. Shutting down...";
      Call observer_stop None;
      Call observer_join None ].
Proof. split; reflexivity. Qed.

(** Case analysis on the faults of the attempt numbered [next_conn w]. *)
Ltac unfold_reload :=
  unfold pgbouncer_reload, try_finally, try_except, bind, connect, db_call,
    close_cursor, close_connection, log, emit, set_local, get_local, ret;
  cbn.

Ltac fault_cases E w :=
  repeat match goal with
    | |- context [db_fault E (next_conn w) ?op] =>
        destruct (db_fault E (next_conn w) op) as [[?|?]|] eqn:?; cbn
    end.

Ltac run_reload E w := unfold_reload; fault_cases E w.

Lemma pgbouncer_reload_returns E self l w :
  out (pgbouncer_reload E self l w) = Ret tt.
Proof.
  run_reload E w; reflexivity.
Qed.

Lemma pgbouncer_reload_world E self l w :
  clock (after (pgbouncer_reload E self l w)) = clock w /\
  next_conn (after (pgbouncer_reload E self l w)) = S (next_conn w) /\
  watches (after (pgbouncer_reload E self l w)) = watches w /\
  observing (after (pgbouncer_reload E self l w)) = observing w.
Proof.
  run_reload E w; repeat split.
Qed.

Lemma pgbouncer_reload_counts E self l w :
  reload_calls (emitted (pgbouncer_reload E self l w)) = 1%nat /\
  connect_attempts (emitted (pgbouncer_reload E self l w)) = 1%nat /\
  forall secs, sleeps secs (emitted (pgbouncer_reload E self l w)) = 0%nat.
Proof.
  run_reload E w; repeat split.
Qed.


Lemma on_created_skip E self ev w :
  qualifying ev = false ->
  on_created E self ev tt w =
    Result (Ret tt) tt w
      (if is_directory ev then [] else [(clock w, create_log ev)]).
Proof.
  unfold qualifying, on_created. intros H.
  destruct (is_directory ev); cbn in *; [reflexivity|].
  rewrite H. reflexivity.
Qed.

Lemma on_created_fire E self ev w :
  qualifying ev = true -> 0 <= timeout self ->
  on_created E self ev tt w =
    match pgbouncer_reload E self no_locals (elapse (timeout self) w) with
    | Result o _ w1 tr =>
        Result o tt w1
          ((clock w, create_log ev)
             :: (clock w, Call (time_sleep (timeout self)) None) :: tr)
    end.
Proof.
  unfold qualifying, on_created. intros H Ht.
  apply andb_true_iff in H. destruct H as [Hd Hp].
  rewrite Hd, Hp.
  unfold bind, log, emit, sleep, invoke.
  destruct (Z.ltb_spec (timeout self) 0) as [Hneg|_]; [lia|].
  unfold no_locals.
  destruct (pgbouncer_reload E self _ _). reflexivity.
Qed.

Lemma on_created_negative E self ev w :
  qualifying ev = true -> timeout self < 0 ->
  on_created E self ev tt w =
    Result (Raise sleep_error) tt w
      [ (clock w, create_log ev);
        (clock w, Call (time_sleep (timeout self)) (Some sleep_error)) ].
Proof.
  unfold qualifying, on_created. intros H Ht.
  apply andb_true_iff in H. destruct H as [Hd Hp].
  rewrite Hd, Hp.
  unfold bind, log, emit, sleep.
  destruct (Z.ltb_spec (timeout self) 0) as [_|Hpos]; [reflexivity | lia].
Qed.

Lemma sleep_outcome_ret secs : sleep_outcome secs = Ret tt -> 0 <= secs.
Proof.
  unfold sleep_outcome, sleep.
  destruct (Z.ltb_spec secs 0) as [Hneg|Hpos]; [discriminate | trivial].
Qed.


Lemma bind_assoc {L A B C} (m : M L A) (k : A -> M L B) (k' : B -> M L C) l w :
  bind (bind m k) k' l w = bind m (fun a => bind (k a) k') l w.
Proof.
  unfold bind.
  destruct (m l w) as [[a|e|] l1 w1 tr1]; try reflexivity.
  destruct (k a l1 w1) as [[b|e|] l2 w2 tr2]; try reflexivity.
  destruct (k' b l2 w2) as [o l3 w3 tr3].
  now rewrite app_assoc.
Qed.

Lemma bind_ext {L A B} (m : M L A) (k k' : A -> M L B) l w :
  (forall a l1 w1, k a l1 w1 = k' a l1 w1) ->
  bind m k l w = bind m k' l w.
Proof.
  intros H. unfold bind.
  destruct (m l w) as [[a|e|] l1 w1 tr1]; try reflexivity.
  now rewrite H.
Qed.

Lemma bind_ret_l {L A} (m : M L A) l w :
  bind (ret tt) (fun _ => m) l w = m l w.
Proof.
  unfold bind, ret. now destruct (m l w).
Qed.

Lemma for_each_app {L A} (xs ys : list A) (body : A -> M L unit) l w :
  for_each (xs ++ ys) body l w =
  bind (for_each xs body) (fun _ => for_each ys body) l w.
Proof.
  revert l w. induction xs as [|x xs IH]; intros l w; cbn [for_each app].
  - now rewrite bind_ret_l.
  - rewrite bind_assoc. apply bind_ext. intros _ l1 w1. apply IH.
Qed.

Lemma dispatch_quiet E self ev w :
  triggers ev = false ->
  out (dispatch E self ev tt w) = Ret tt /\
  after (dispatch E self ev tt w) = w /\
  Forall (fun e => is_call (snd e) = false /\ is_reload_start (snd e) = false)
    (emitted (dispatch E self ev tt w)).
Proof.
  unfold triggers, dispatch. intros H.
  destruct (event_type ev); try (cbn; now repeat split).
  rewrite (on_created_skip _ _ _ _ H).
  destruct (is_directory ev); cbn; repeat split; repeat constructor.
Qed.

Lemma dispatch_fire E self ev w :
  triggers ev = true -> 0 <= timeout self ->
  dispatch E self ev tt w =
    match pgbouncer_reload E self no_locals (elapse (timeout self) w) with
    | Result o _ w1 tr =>
        Result o tt w1
          ((clock w, create_log ev)
             :: (clock w, Call (time_sleep (timeout self)) None) :: tr)
    end.
Proof.
  unfold triggers, dispatch. intros H Ht.
  destruct (event_type ev); try discriminate.
  now apply on_created_fire.
Qed.

(** What one dispatched event adds. *)
Lemma dispatch_summary E self ev w :
  0 <= timeout self ->
  let r := dispatch E self ev tt w in
  let k := if triggers ev then 1%nat else 0%nat in
  out r = Ret tt /\
  reload_calls (emitted r) = k /\
  connect_attempts (emitted r) = k /\
  sleeps (timeout self) (emitted r) = k /\
  next_conn (after r) = (next_conn w + k)%nat /\
  clock (after r) = clock w + Z.of_nat k * timeout self.
Proof.
  intros Ht r k. subst r k.
  destruct (triggers ev) eqn:Hq.
  - rewrite (dispatch_fire _ _ _ _ Hq Ht).
    pose proof (pgbouncer_reload_returns E self no_locals (elapse (timeout self) w)) as Ho.
    pose proof (pgbouncer_reload_world E self no_locals (elapse (timeout self) w)) as (Hc & Hn & _).
    pose proof (pgbouncer_reload_counts E self no_locals (elapse (timeout self) w)) as (Hr & Ha & Hs).
    specialize (Hs (timeout self)).
    destruct (pgbouncer_reload E self no_locals (elapse (timeout self) w)) as [o l1 w1 tr].
    cbn [out after emitted] in *.
    unfold reload_calls, connect_attempts, sleeps, count in *.
    cbn [actions map snd filter is_reload_start is_connect is_sleep create_log].
    rewrite Z.eqb_refl. cbn [List.length].
    fold (actions tr). rewrite Hr, Ha, Hs, Hn, Hc. cbn [elapse clock next_conn].
    repeat split; try assumption; lia.
  - destruct (dispatch_quiet E self ev w Hq) as (Ho & Hw & Hf).
    rewrite Hw. repeat split; try assumption; try lia.
    all: unfold reload_calls, connect_attempts, sleeps, count, actions.
    all: induction Hf as [|[t a] tr [Hc Hs] _ IH]; [reflexivity|].
    all: cbn [map snd filter] in *.
    + now rewrite Hs.
    + destruct a as [|[] ?]; try discriminate; cbn; assumption.
    + destruct a as [|[] ?]; try discriminate; cbn; assumption.
Qed.

Lemma triggering_cons ev events :
  triggering (ev :: events) =
  ((if triggers ev then 1 else 0) + triggering events)%nat.
Proof.
  unfold triggering. cbn [filter]. now destruct (triggers ev).
Qed.

Lemma triggering_app evs1 evs2 :
  triggering (evs1 ++ evs2) = (triggering evs1 + triggering evs2)%nat.
Proof.
  unfold triggering. now rewrite filter_app, length_app.
Qed.

(** What a run of the observer's thread over [events] adds. *)
Lemma dispatch_events_summary E self events :
  0 <= timeout self ->
  forall w,
    let r := dispatch_events E self events tt w in
    out r = Ret tt /\
    reload_calls (emitted r) = triggering events /\
    connect_attempts (emitted r) = triggering events /\
    sleeps (timeout self) (emitted r) = triggering events /\
    next_conn (after r) = (next_conn w + triggering events)%nat /\
    clock (after r) = clock w + Z.of_nat (triggering events) * timeout self.
Proof.
  intros Ht. unfold dispatch_events.
  induction events as [|ev events IH]; intros w; cbn [for_each].
  - cbn. repeat split; lia.
  - rewrite triggering_cons.
    pose proof (dispatch_summary E self ev w Ht) as (Ho & Hr & Ha & Hs & Hn & Hc).
    unfold bind.
    destruct (dispatch E self ev tt w) as [o [] w1 tr1].
    cbn [out after emitted] in *. subst o.
    specialize (IH w1). cbn zeta in IH.
    destruct (for_each events (dispatch E self) tt w1) as [o2 l2 w2 tr2].
    cbn [out after emitted] in *.
    destruct IH as (Ho2 & Hr2 & Ha2 & Hs2 & Hn2 & Hc2).
    unfold reload_calls, connect_attempts, sleeps in *.
    rewrite !count_app, Hr, Ha, Hs, Hr2, Ha2, Hs2, Hn2, Hc2, Hn, Hc.
    repeat split; try assumption; lia.
Qed.

Lemma actions_stamped t acts : actions (stamped t acts) = acts.
Proof.
  unfold actions, stamped. rewrite map_map. cbn. apply map_id.
Qed.

Lemma watch_loop E paths w :
  for_each paths
    (fun path =>
       if isdir E path then
         log INFO ("Watching path: " ++ path);;
         schedule path true
       else
         log WARNING ("Path '" ++ path ++
                      "' is not a directory or does not exist. Skipping..."))
    tt w =
  Result (Ret tt) tt
    {| clock := clock w; next_conn := next_conn w; open_conns := open_conns w;
       watches := watches w ++ filter (isdir E) paths;
       observing := observing w |}
    (stamped (clock w) (flat_map (watch_actions E) paths)).
Proof.
  revert w. induction paths as [|p paths IH]; intros w; cbn [for_each filter flat_map].
  - destruct w. cbn. now rewrite app_nil_r.
  - unfold bind at 1. unfold watch_actions at 1.
    destruct (isdir E p); cbn.
    + rewrite IH. cbn. rewrite <- app_assoc. reflexivity.
    + rewrite IH. reflexivity.
Qed.

Lemma run_setup_spec E a w t :
  int_value E (pgbouncer_reload_timeout a) = inl t ->
  run_setup E a tt w =
  Result
    (Ret (init (pgbouncer_host a) (pgbouncer_port a) (pgbouncer_user a)
               (pgbouncer_password a) (Some (pgbouncer_database a)) (Some t)))
    tt
    {| clock := clock w; next_conn := next_conn w; open_conns := open_conns w;
       watches := watches w ++ filter (isdir E) (watch_paths a);
       observing := true |}
    (stamped (clock w)
       (flat_map (watch_actions E) (watch_paths a)
        ++ [Call observer_start None; Log INFO "Entering event loop..."])).
Proof.
  intros Hint. unfold run_setup, int. rewrite Hint.
  unfold bind at 1. unfold ret at 1.
  unfold bind at 1. rewrite watch_loop.
  cbn. unfold stamped. rewrite map_app. reflexivity.
Qed.

Lemma idle_loop_pending E fuel : forall k w,
  (forall j, (k <= j < k + fuel)%nat -> interrupts E j = None) ->
  out (idle_loop E fuel k tt w) = Pending /\
  clock (after (idle_loop E fuel k tt w)) = clock w + Z.of_nat fuel /\
  observing (after (idle_loop E fuel k tt w)) = observing w.
Proof.
  induction fuel as [|fuel IH]; intros k w Hquiet; cbn [idle_loop].
  - cbn. repeat split. lia.
  - unfold bind, idle_sleep. rewrite (Hquiet k) by lia.
    cbn.
    destruct (IH (S k) (elapse 1 w)) as (Ho & Hc & Hb).
    { intros j Hj. apply Hquiet. lia. }
    destruct (idle_loop E fuel (S k) tt (elapse 1 w)) as [o [] w1 tr].
    cbn [out after emitted] in *. subst o. cbn [elapse clock observing] in *.
    repeat split; try assumption. lia.
Qed.

(** ** The properties *)

(** C1: a creation event that is directory-flagged, or whose base name does
    not start with [..data], triggers no reload: the handler returns, leaves
    the world as it was and makes no external call; a reload is invoked only
    for a non-directory event whose base name starts with [..data]. *)
Theorem on_created_reloads_only_on_marker E self ev w :
  (is_directory ev = true \/
   startswith (basename (src_path ev)) "..data" = false ->
   out (on_created E self ev tt w) = Ret tt /\
   after (on_created E self ev tt w) = w /\
   reload_calls (emitted (on_created E self ev tt w)) = 0%nat /\
   calls (emitted (on_created E self ev tt w)) = []) /\
  (reload_calls (emitted (on_created E self ev tt w)) <> 0%nat ->
   is_directory ev = false /\
   startswith (basename (src_path ev)) "..data" = true).
Proof.
  assert (Hskip : qualifying ev = false ->
            out (on_created E self ev tt w) = Ret tt /\
            after (on_created E self ev tt w) = w /\
            reload_calls (emitted (on_created E self ev tt w)) = 0%nat /\
            calls (emitted (on_created E self ev tt w)) = []).
  { intros Hq. rewrite (on_created_skip E self ev w Hq).
    now destruct (is_directory ev). }
  split.
  - intros H. apply Hskip. unfold qualifying.
    destruct H as [H|H]; rewrite H; [reflexivity | apply andb_false_r].
  - intros Hn. destruct (qualifying ev) eqn:Hq.
    + unfold qualifying in Hq. apply andb_true_iff in Hq.
      destruct Hq as [Hd Hp]. split; [|exact Hp].
      now destruct (is_directory ev).
    + destruct (Hskip eq_refl) as (_ & _ & H0 & _). contradiction.
Qed.

Lemma on_created_reloads_only_on_marker_witness :
  reload_calls (emitted (on_created calm_env handler0 plain_event tt world0)) = 0%nat.
Proof.
  apply (proj1 (on_created_reloads_only_on_marker calm_env handler0 plain_event world0)).
  right. reflexivity.
Defined.

(** C2: a reload opens a connection with the handler's user, password,
    host, port and admin database, sets isolation level 0 (autocommit),
    executes the one statement [RELOAD;], commits, and closes the connection
    in the cleanup phase.  The steps run in this order up to the first one
    that fails; the cleanup runs in every case and closes whatever was
    obtained. *)
Theorem reload_sequence E self l w :
  calls (emitted (pgbouncer_reload E self l w)) =
    (perform E (next_conn w) (reload_script (dsn_of self) (next_conn w))
     ++ cleanup E (next_conn w))%list /\
  ((forall op, db_fault E (next_conn w) op = None) ->
   calls (emitted (pgbouncer_reload E self l w)) =
     [ Call (psycopg2_connect (dsn_of self)) None;
       Call (set_isolation_level (next_conn w) 0) None;
       Call (connection_cursor (next_conn w)) None;
       Call (cursor_execute (next_conn w) "RELOAD;") None;
       Call (connection_commit (next_conn w)) None;
       Call (cursor_close (next_conn w)) None;
       Call (connection_close (next_conn w)) None ]) /\
  (db_fault E (next_conn w) OpConnect = None ->
   exists before,
     calls (emitted (pgbouncer_reload E self l w)) =
       (before ++ [Call (connection_close (next_conn w)) None])%list).
Proof.
  assert (Hgen : calls (emitted (pgbouncer_reload E self l w)) =
    (perform E (next_conn w) (reload_script (dsn_of self) (next_conn w))
     ++ cleanup E (next_conn w))%list).
  { unfold cleanup, succeeds, reload_script, perform, dsn_of.
    unfold_reload. fault_cases E w; reflexivity. }
  split; [exact Hgen|]. split.
  - intros Hok. rewrite Hgen.
    unfold cleanup, succeeds, reload_script, perform.
    rewrite !Hok. reflexivity.
  - intros Hc. rewrite Hgen. unfold cleanup, succeeds. rewrite Hc. cbn [andb].
    eexists. rewrite app_assoc. reflexivity.
Qed.

Lemma reload_sequence_witness :
  calls (emitted (pgbouncer_reload calm_env handler0 no_locals world0)) =
    [ Call (psycopg2_connect (dsn_of handler0)) None;
      Call (set_isolation_level 0 0) None;
      Call (connection_cursor 0) None;
      Call (cursor_execute 0 "RELOAD;") None;
      Call (connection_commit 0) None;
      Call (cursor_close 0) None;
      Call (connection_close 0) None ].
Proof.
  apply (proj1 (proj2 (reload_sequence calm_env handler0 no_locals world0))).
  intros op. reflexivity.
Defined.

(** C3: a reload that acquires its connection closes it before the handler
    returns, whether the isolation-level change, the cursor, the command or
    the commit succeeded or raised: the call returns, the close is in its
    trace, the connection is not among the open ones afterwards, and from a
    world that did not hold it the set of open connections is unchanged.
    The same holds for [on_created] on an event that passes the filter. *)
Theorem acquired_connection_is_released E self w :
  db_fault E (next_conn w) OpConnect = None ->
  (forall l,
     out (pgbouncer_reload E self l w) = Ret tt /\
     In (Call (connection_close (next_conn w)) None)
        (actions (emitted (pgbouncer_reload E self l w))) /\
     ~ In (next_conn w) (open_conns (after (pgbouncer_reload E self l w))) /\
     (~ In (next_conn w) (open_conns w) ->
      open_conns (after (pgbouncer_reload E self l w)) = open_conns w)) /\
  (forall ev,
     qualifying ev = true -> 0 <= timeout self ->
     out (on_created E self ev tt w) = Ret tt /\
     In (Call (connection_close (next_conn w)) None)
        (actions (emitted (on_created E self ev tt w))) /\
     ~ In (next_conn w) (open_conns (after (on_created E self ev tt w)))).
Proof.
  intros Hc.
  assert (Hreload : forall l w', next_conn w' = next_conn w ->
     out (pgbouncer_reload E self l w') = Ret tt /\
     In (Call (connection_close (next_conn w)) None)
        (actions (emitted (pgbouncer_reload E self l w'))) /\
     open_conns (after (pgbouncer_reload E self l w')) =
       remove Nat.eq_dec (next_conn w) (next_conn w :: open_conns w')).
  { intros l w' Hn. unfold_reload. rewrite Hn, Hc. cbn. rewrite <- Hn.
    fault_cases E w'; rewrite ?Hn; repeat split; cbn; tauto. }
  split.
  - intros l. destruct (Hreload l w eq_refl) as (Ho & Hi & Hopen).
    rewrite Hopen. repeat split; try assumption.
    + apply remove_In.
    + intros Hfresh. cbn [remove].
      destruct (Nat.eq_dec (next_conn w) (next_conn w)) as [_|Hne]; [|contradiction].
      now apply notin_remove.
  - intros ev Hq Ht. rewrite (on_created_fire E self ev w Hq Ht).
    destruct (Hreload no_locals (elapse (timeout self) w) eq_refl) as (Ho & Hi & Hopen).
    destruct (pgbouncer_reload E self no_locals (elapse (timeout self) w))
      as [o l1 w1 tr].
    cbn [out after emitted actions map] in *.
    repeat split; try assumption.
    + right. right. exact Hi.
    + rewrite Hopen. apply remove_In.
Qed.

Lemma acquired_connection_is_released_witness :
  open_conns (after (pgbouncer_reload flaky_env handler0 no_locals world0)) = [].
Proof.
  apply (proj1 (acquired_connection_is_released flaky_env handler0 world0 eq_refl)
           no_locals).
  intros H. exact H.
Defined.

(** C4: a failure while connecting, setting the isolation level, opening the
    cursor, executing the command or committing is caught inside the reload
    and logged; [pgbouncer_reload] returns normally whatever fails.  The
    observer's thread therefore outlives failed reloads, and an event that
    passes the filter after any earlier events gets a reload attempt of its
    own, run in the world those events left. *)
Theorem reload_failure_is_contained E self :
  (forall l w, out (pgbouncer_reload E self l w) = Ret tt) /\
  (forall l w op f,
     first_fault E (next_conn w) = Some (op, f) ->
     In (failure_log f) (actions (emitted (pgbouncer_reload E self l w)))) /\
  (0 <= timeout self ->
   forall events w, out (dispatch_events E self events tt w) = Ret tt) /\
  (0 <= timeout self ->
   forall events ev w,
     triggers ev = true ->
     out (dispatch_events E self (events ++ [ev]) tt w) = Ret tt /\
     emitted (dispatch_events E self (events ++ [ev]) tt w) =
       (emitted (dispatch_events E self events tt w)
        ++ emitted (on_created E self ev tt
                      (after (dispatch_events E self events tt w))))%list /\
     connect_attempts (emitted (dispatch_events E self (events ++ [ev]) tt w)) =
       S (connect_attempts (emitted (dispatch_events E self events tt w)))).
Proof.
  split; [intros l w; apply pgbouncer_reload_returns|].
  split.
  - intros l w op f. unfold first_fault, first_fault_in, failure_log.
    unfold_reload. fault_cases E w.
    all: intros H; inversion H; subst; cbn; tauto.
  - split.
    + intros Ht events w. apply (dispatch_events_summary E self events Ht w).
    + intros Ht events ev w Hq.
      pose proof (dispatch_events_summary E self (events ++ [ev]) Ht w) as (Ho & _ & Ha & _).
      pose proof (dispatch_events_summary E self events Ht w) as (Ho1 & _ & Ha1 & _).
      split; [exact Ho|]. split.
      * unfold dispatch_events in *. rewrite for_each_app.
        unfold bind at 1.
        destruct (for_each events (dispatch E self) tt w) as [o1 [] w1 tr1].
        cbn [out after emitted] in *. subst o1.
        cbn [for_each]. unfold bind, ret.
        assert (Hd : dispatch E self ev tt w1 = on_created E self ev tt w1).
        { unfold dispatch. unfold triggers in Hq.
          now destruct (event_type ev). }
        rewrite Hd.
        destruct (on_created E self ev tt w1) as [[[]|e|] [] w2 tr2];
          cbn [emitted]; now rewrite ?app_nil_r.
      * rewrite Ha, Ha1, triggering_app, triggering_cons, Hq.
        cbn. lia.
Qed.

Lemma reload_failure_is_contained_witness :
  In (Log ERROR "Failed to RELOAD pgbouncer: server closed the connection")
     (actions (emitted (pgbouncer_reload flaky_env handler0 no_locals world0))) /\
  connect_attempts
    (emitted (dispatch_events flaky_env handler0 ([marker_event] ++ [marker_event])
                tt world0)) = 2%nat.
Proof.
  destruct (reload_failure_is_contained flaky_env handler0) as (_ & Hlog & _ & Hnext).
  split.
  - apply (Hlog no_locals world0 OpExecute
             (DriverError "server closed the connection")).
    reflexivity.
  - assert (Ht : 0 <= timeout handler0) by (cbn; lia).
    destruct (Hnext Ht [marker_event] marker_event world0 eq_refl) as (_ & _ & Hn).
    exact Hn.
Defined.

(** C5, as the code has it: when no configured path is an existing
    directory, start-up does not fail.  Every path is skipped with a
    warning, nothing is scheduled, the observer is started and [run] goes on
    into the idle loop, where it stays for as long as no interrupt
    arrives. *)
Theorem zero_watches_still_runs E a w t :
  int_value E (pgbouncer_reload_timeout a) = inl t ->
  filter (isdir E) (watch_paths a) = [] ->
  (exists handler, out (run_setup E a tt w) = Ret handler) /\
  watches (after (run_setup E a tt w)) = watches w /\
  observing (after (run_setup E a tt w)) = true /\
  actions (emitted (run_setup E a tt w)) =
    (map skip_log (watch_paths a)
     ++ [Call observer_start None; Log INFO "Entering event loop..."])%list /\
  (forall fuel,
     (forall j, (j < fuel)%nat -> interrupts E j = None) ->
     out (run E a fuel tt w) = Pending /\
     observing (after (run E a fuel tt w)) = true).
Proof.
  intros Hint Hnone.
  rewrite (run_setup_spec E a w t Hint). cbn [out after emitted watches observing].
  rewrite Hnone, app_nil_r, actions_stamped.
  split; [eexists; reflexivity|].
  split; [reflexivity|]. split; [reflexivity|]. split.
  - f_equal. revert Hnone. generalize (watch_paths a) as paths.
    induction paths as [|p paths IH]; [reflexivity|].
    cbn [filter flat_map map]. unfold watch_actions at 1.
    destruct (isdir E p); [discriminate|].
    intros Hnone. cbn. now rewrite IH.
  - intros fuel Hquiet. unfold run, bind.
    rewrite (run_setup_spec E a w t Hint).
    unfold try_finally, try_except.
    match goal with
    | |- context [idle_loop E fuel 0 tt ?w0] =>
        destruct (idle_loop_pending E fuel 0%nat w0) as (Ho & _ & Hb);
        [ intros j Hj; apply Hquiet; lia | ];
        destruct (idle_loop E fuel 0 tt w0) as [o [] w1 tr]
    end.
    cbn [out after emitted observing] in *. subst o. cbn. now split.
Qed.

Lemma zero_watches_still_runs_witness :
  out (run calm_env (args0 "/missing/path") 5 tt world0) = Pending /\
  observing (after (run calm_env (args0 "/missing/path") 5 tt world0)) = true.
Proof.
  destruct (zero_watches_still_runs calm_env (args0 "/missing/path") world0 10
              eq_refl eq_refl) as (_ & _ & _ & _ & Hrun).
  apply Hrun. intros j _. reflexivity.
Defined.

(** C5, as stated, fails on the code: with the single path [/missing/path],
    which is no directory, [run] raises nothing; its set-up returns the
    handler with no watch scheduled and the observer started, and it is in
    the idle loop afterwards. *)
Lemma zero_watches_counterexample :
  filter (isdir calm_env) (watch_paths (args0 "/missing/path")) = [] /\
  out (run_setup calm_env (args0 "/missing/path") tt world0) =
    Ret (init "localhost" (PyInt 6432) "pgbouncer" "secret"
              (Some "pgbouncer") (Some 10)) /\
  watches (after (run_setup calm_env (args0 "/missing/path") tt world0)) = [] /\
  actions (emitted (run calm_env (args0 "/missing/path") 2 tt world0)) =
    [ Log WARNING
        "Path '/missing/path' is not a directory or does not exist. Skipping...";
      Call observer_start None;
      Log INFO "Entering event loop...";
      Call (time_sleep 1) None;
      Call (time_sleep 1) None ] /\
  ~ (forall E a w,
       filter (isdir E) (watch_paths a) = [] ->
       exists e, out (run_setup E a tt w) = Raise e).
Proof.
  repeat split.
  intros Hclaim.
  destruct (Hclaim calm_env (args0 "/missing/path") world0 eq_refl) as [e He].
  discriminate He.
Qed.




(** C7, as the code has it: events are never coalesced.  With a timeout on
    which [time.sleep] returns, over any run of the observer's thread the
    number of reloads, of connection attempts and of sleeps of [timeout]
    each equal the number of events that pass the filter; for [n] such
    events there are exactly [n] reload attempts and the clock has moved by
    [n] timeouts. *)
Theorem one_reload_per_qualifying_event E self events w :
  sleep_outcome (timeout self) = Ret tt ->
  (out (dispatch_events E self events tt w) = Ret tt /\
   reload_calls (emitted (dispatch_events E self events tt w)) = triggering events /\
   connect_attempts (emitted (dispatch_events E self events tt w)) = triggering events /\
   sleeps (timeout self) (emitted (dispatch_events E self events tt w)) =
     triggering events) /\
  (Forall (fun ev => triggers ev = true) events ->
   reload_calls (emitted (dispatch_events E self events tt w)) = List.length events /\
   connect_attempts (emitted (dispatch_events E self events tt w)) = List.length events /\
   sleeps (timeout self) (emitted (dispatch_events E self events tt w)) =
     List.length events /\
   next_conn (after (dispatch_events E self events tt w)) =
     (next_conn w + List.length events)%nat /\
   clock (after (dispatch_events E self events tt w)) =
     clock w + Z.of_nat (List.length events) * timeout self).
Proof.
  intros Hret. apply sleep_outcome_ret in Hret as Ht.
  pose proof (dispatch_events_summary E self events Ht w) as (Ho & Hr & Ha & Hs & Hn & Hc).
  split; [now repeat split|].
  intros Hall.
  assert (Hlen : triggering events = List.length events).
  { unfold triggering. clear -Hall.
    induction Hall as [|ev evs Hev _ IH]; [reflexivity|].
    cbn [filter]. rewrite Hev. cbn [List.length]. now rewrite IH. }
  rewrite <- Hlen. now repeat split.
Qed.

Lemma one_reload_per_qualifying_event_witness :
  reload_calls
    (emitted (dispatch_events flaky_env handler0
                [marker_event; marker_event; marker_event] tt world0)) = 3%nat.
Proof.
  apply (proj2 (one_reload_per_qualifying_event flaky_env handler0
                  [marker_event; marker_event; marker_event] world0 eq_refl)).
  repeat constructor.
Defined.

(** C7, as stated, fails on the code: with a timeout of -5, three events
    that pass the filter give no reload attempt at all.  The first one makes
    [time.sleep] raise, which ends the observer's thread. *)
Lemma one_reload_per_qualifying_event_counterexample :
  Forall (fun ev => triggers ev = true) [marker_event; marker_event; marker_event] /\
  out (dispatch_events calm_env negative_handler
         [marker_event; marker_event; marker_event] tt world0) = Raise sleep_error /\
  reload_calls
    (emitted (dispatch_events calm_env negative_handler
                [marker_event; marker_event; marker_event] tt world0)) = 0%nat /\
  connect_attempts
    (emitted (dispatch_events calm_env negative_handler
                [marker_event; marker_event; marker_event] tt world0)) = 0%nat /\
  ~ (forall E self events w,
       Forall (fun ev => triggers ev = true) events ->
       reload_calls (emitted (dispatch_events E self events tt w)) =
         List.length events).
Proof.
  assert (Hall : Forall (fun ev => triggers ev = true)
                   [marker_event; marker_event; marker_event])
    by (repeat constructor).
  split; [exact Hall|]. repeat split.
  intros Hclaim.
  specialize (Hclaim calm_env negative_handler
                [marker_event; marker_event; marker_event] world0 Hall).
  discriminate Hclaim.
Qed.

(** C8: a configured path that is not an existing directory is skipped with
    a warning, the other paths are scheduled (recursively), and start-up
    succeeds: the watches added are exactly the configured paths that are
    directories, in order, and the warnings are exactly those for the
    others.  For [/etc/pgbouncer;/missing/path] with only the first an
    existing directory, start-up succeeds, warns about [/missing/path] and
    schedules [/etc/pgbouncer] alone. *)
Theorem invalid_paths_are_skipped E a w t :
  int_value E (pgbouncer_reload_timeout a) = inl t ->
  ((exists handler, out (run_setup E a tt w) = Ret handler) /\
   watches (after (run_setup E a tt w)) =
     (watches w ++ filter (isdir E) (watch_paths a))%list /\
   observing (after (run_setup E a tt w)) = true /\
   actions (emitted (run_setup E a tt w)) =
     (flat_map (watch_actions E) (watch_paths a)
      ++ [Call observer_start None; Log INFO "Entering event loop..."])%list /\
   (forall path,
      In path (watch_paths a) -> isdir E path = false ->
      In (skip_log path) (actions (emitted (run_setup E a tt w))) /\
      ~ In (Call (observer_schedule path true) None)
           (actions (emitted (run_setup E a tt w)))) /\
   (forall path,
      In path (watch_paths a) -> isdir E path = true ->
      In (Call (observer_schedule path true) None)
         (actions (emitted (run_setup E a tt w))))) /\
  (config_path a = "/etc/pgbouncer;/missing/path" ->
   isdir E "/etc/pgbouncer" = true -> isdir E "/missing/path" = false ->
   (exists handler, out (run_setup E a tt w) = Ret handler) /\
   watches (after (run_setup E a tt w)) = (watches w ++ ["/etc/pgbouncer"])%list /\
   actions (emitted (run_setup E a tt w)) =
     [ Log INFO "Watching path: /etc/pgbouncer";
       Call (observer_schedule "/etc/pgbouncer" true) None;
       Log WARNING
         "Path '/missing/path' is not a directory or does not exist. Skipping...";
       Call observer_start None;
       Log INFO "Entering event loop..." ]).
Proof.
  intros Hint.
  rewrite (run_setup_spec E a w t Hint). cbn [out after emitted watches observing].
  rewrite actions_stamped.
  split.
  - split; [eexists; reflexivity|].
    split; [reflexivity|]. split; [reflexivity|]. split; [reflexivity|].
    split.
    + intros path Hin Hno. split.
      * apply in_or_app. left. apply in_flat_map. exists path. split; [exact Hin|].
        unfold watch_actions. rewrite Hno. now left.
      * intros Hbad. apply in_app_or in Hbad. destruct Hbad as [Hbad|Hbad].
        -- apply in_flat_map in Hbad. destruct Hbad as (p & _ & Hp).
           unfold watch_actions in Hp. destruct (isdir E p) eqn:Hd.
           ++ destruct Hp as [Hp|[Hp|[]]]; [discriminate|].
              injection Hp as Hp. subst p. congruence.
           ++ destruct Hp as [Hp|[]]. discriminate.
        -- destruct Hbad as [Hbad|[Hbad|[]]]; discriminate.
    + intros path Hin Hyes.
      apply in_or_app. left. apply in_flat_map. exists path. split; [exact Hin|].
      unfold watch_actions. rewrite Hyes. right. now left.
  - intros Hcfg Hetc Hmiss. unfold watch_paths. rewrite Hcfg.
    cbn [split Ascii.eqb Bool.eqb]. cbn [filter flat_map].
    unfold watch_actions. rewrite Hetc, Hmiss.
    split; [eexists; reflexivity|].
    split; reflexivity.
Qed.

Lemma invalid_paths_are_skipped_witness :
  watches (after (run_setup calm_env (args0 "/etc/pgbouncer;/missing/path")
                    tt world0)) = ["/etc/pgbouncer"] /\
  In (skip_log "/missing/path")
     (actions (emitted (run_setup calm_env (args0 "/etc/pgbouncer;/missing/path")
                          tt world0))).
Proof.
  destruct (invalid_paths_are_skipped calm_env
              (args0 "/etc/pgbouncer;/missing/path") world0 10 eq_refl)
    as ((_ & _ & _ & _ & Hskip & _) & Hex).
  split.
  - destruct (Hex eq_refl eq_refl eq_refl) as (_ & Hw & _). exact Hw.
  - apply (Hskip "/missing/path"); [right; left; reflexivity | reflexivity].
Defined.

(** C9: a reload that acquired its connection ends by logging
    [Pgbouncer gracefully reloaded.], whatever happened in between: when a
    later step failed, the trace holds both the error line of that failure
    and, after it, the success line. *)
Theorem success_log_is_unconditional E self l w :
  db_fault E (next_conn w) OpConnect = None ->
  last (actions (emitted (pgbouncer_reload E self l w))) (Log DEBUG "") =
    success_log /\
  (forall op f,
     first_fault E (next_conn w) = Some (op, f) ->
     exists before between,
       actions (emitted (pgbouncer_reload E self l w)) =
         (before ++ failure_log f :: between ++ [success_log])%list).
Proof.
  intros Hc. split.
  - unfold success_log. unfold_reload. rewrite Hc. cbn.
    fault_cases E w; reflexivity.
  - intros op f. unfold first_fault, first_fault_in, failure_log, success_log.
    unfold_reload. rewrite Hc. cbn.
    fault_cases E w.
    all: intros H; inversion H; subst; cbn.
    all: match goal with
         | |- exists _ _, ?xs = _ =>
             let rec go pre l :=
               lazymatch l with
               | Log ERROR ?m :: ?rest =>
                   exists (rev pre);
                   exists (removelast rest)
               | ?a :: ?rest => go (a :: pre) rest
               end in
             go (@nil action) xs
         end; reflexivity.
Qed.

Lemma success_log_is_unconditional_witness :
  exists before between,
    actions (emitted (pgbouncer_reload flaky_env handler0 no_locals world0)) =
      (before
       ++ Log ERROR "Failed to RELOAD pgbouncer: server closed the connection"
       :: between ++ [Log INFO "Pgbouncer gracefully reloaded."])%list.
Proof.
  apply (proj2 (success_log_is_unconditional flaky_env handler0 no_locals world0
                  eq_refl)
           OpExecute (DriverError "server closed the connection")).
  reflexivity.
Defined.

(** C10: the level given to the logger never rises with the verbosity count
    and is clamped below at DEBUG: ERROR at verbosity 0, [max (ERROR - 10*v)
    DEBUG] for every [v > 0], and DEBUG from verbosity 3 on. *)
Theorem loglvl_monotone_clamped :
  loglvl 0 = levelno ERROR /\
  (forall v, 0 < v -> loglvl v = Z.max (levelno ERROR - 10 * v) (levelno DEBUG)) /\
  (forall v v', v <= v' -> loglvl v' <= loglvl v) /\
  (forall v, 4 <= v -> loglvl v = levelno DEBUG) /\
  (forall v, levelno DEBUG <= loglvl v <= levelno ERROR).
Proof.
  unfold loglvl, levelno. repeat split; intros.
  all: rewrite ?Z.gtb_ltb.
  all: repeat match goal with
         | |- context [0 <? ?x] => destruct (Z.ltb_spec 0 x)
         end; lia.
Qed.

Lemma loglvl_monotone_clamped_witness :
  loglvl 2 = Z.max (levelno ERROR - 10 * 2) (levelno DEBUG) /\
  loglvl 3 <= loglvl 1 /\
  loglvl 7 = levelno DEBUG.
Proof.
  destruct loglvl_monotone_clamped as (_ & Hpos & Hmono & Hclamp & _).
  split; [apply Hpos; lia|].
  split; [apply Hmono; lia|].
  apply Hclamp; lia.
Defined.

(** * Further properties of the code *)

(** ** Paths and path lists *)

Lemma rfind_from_last_index c s : forall i last,
  rfind_from c s i last =
    match last_index c s with
    | Some k => i + Z.of_nat k
    | None => last
    end.
Proof.
  induction s as [|a r IH]; intros i last; cbn [rfind_from last_index].
  - reflexivity.
  - rewrite IH. destruct (last_index c r) as [k|].
    + lia.
    + destruct (Ascii.eqb a c); [lia | reflexivity].
Qed.

Lemma basename_last_index p :
  basename p =
    match last_index "/" p with
    | Some k => drop (S k) p
    | None => p
    end.
Proof.
  unfold basename, rfind, slice_from. rewrite rfind_from_last_index.
  destruct (last_index "/" p) as [k|].
  - replace (Z.to_nat (0 + Z.of_nat k + 1)) with (S k) by lia. reflexivity.
  - reflexivity.
Qed.

Lemma last_index_none c s : last_index c s = None <-> contains c s = false.
Proof.
  induction s as [|a r IH]; cbn [last_index contains].
  - tauto.
  - destruct (last_index c r) as [k|].
    + split; [discriminate|]. intros H. apply orb_false_iff in H.
      destruct H as [_ H]. apply IH in H. discriminate.
    + destruct (Ascii.eqb a c); cbn.
      * split; discriminate.
      * split; intros _; [now apply IH | reflexivity].
Qed.

Lemma last_index_split c s k :
  last_index c s = Some k ->
  exists pre,
    s = pre ++ String c (drop (S k) s) /\
    String.length pre = k /\
    contains c (drop (S k) s) = false.
Proof.
  revert k. induction s as [|a r IH]; intros k; cbn [last_index].
  - discriminate.
  - destruct (last_index c r) as [j|] eqn:Hr.
    + intros H. injection H as <-.
      destruct (IH j eq_refl) as (pre & Hs & Hl & Hc).
      exists (String a pre).
      change (drop (S (S j)) (String a r)) with (drop (S j) r).
      repeat split; [cbn [append]; f_equal; exact Hs | cbn; now rewrite Hl | exact Hc].
    + destruct (Ascii.eqb a c) eqn:Hac; [|discriminate].
      intros H. injection H as <-.
      apply Ascii.eqb_eq in Hac. subst a.
      exists EmptyString. cbn. repeat split. now apply last_index_none.
Qed.

Lemma last_index_join c dir name :
  contains c name = false ->
  last_index c (dir ++ String c name) = Some (String.length dir).
Proof.
  intros Hn. induction dir as [|a r IH]; cbn [append last_index String.length].
  - apply last_index_none in Hn. rewrite Hn, Ascii.eqb_refl. reflexivity.
  - now rewrite IH.
Qed.

Lemma drop_join dir c name :
  drop (S (String.length dir)) (dir ++ String c name) = name.
Proof.
  induction dir as [|a r IH]; cbn [append String.length drop].
  - reflexivity.
  - exact IH.
Qed.

(** X1: the base name of [dir/name], for a [name] without a slash, is
    [name], whatever [dir] holds: the filter of [on_created] looks at the
    last component only, so a plain file inside a [..data] directory does not
    pass and a [..data] entry below any directory does. *)
Theorem basename_of_join dir name :
  contains "/" name = false ->
  basename (dir ++ String "/" name) = name /\
  (forall kind is_dir,
     qualifying {| event_type := kind; src_path := dir ++ String "/" name;
                   is_directory := is_dir |} =
       negb is_dir && startswith name "..data").
Proof.
  intros Hn.
  assert (Hb : basename (dir ++ String "/" name) = name).
  { rewrite basename_last_index, (last_index_join _ _ _ Hn). apply drop_join. }
  split; [exact Hb|].
  intros kind is_dir. unfold qualifying. cbn [src_path is_directory].
  now rewrite Hb.
Qed.

Lemma basename_of_join_witness :
  basename ("/etc/pgbouncer/..data_1" ++ String "/" "pgbouncer.ini") = "pgbouncer.ini" /\
  qualifying {| event_type := created;
                src_path := "/etc/pgbouncer/..data_1" ++ String "/" "pgbouncer.ini";
                is_directory := false |} = false.
Proof.
  destruct (basename_of_join "/etc/pgbouncer/..data_1" "pgbouncer.ini" eq_refl)
    as (Hb & Hq).
  split; [exact Hb|]. exact (Hq created false).
Defined.

(** X2: [basename] never returns a slash, and it is the part of the path
    after its last slash: a path without a slash is its own base name, and
    any other path is [dir ++ "/" ++ basename path] for some [dir]. *)
Theorem basename_is_last_component p :
  contains "/" (basename p) = false /\
  (contains "/" p = false -> basename p = p) /\
  (contains "/" p = true -> exists dir, p = dir ++ String "/" (basename p)).
Proof.
  rewrite basename_last_index.
  destruct (last_index "/" p) as [k|] eqn:Hk.
  - destruct (last_index_split _ _ _ Hk) as (pre & Hs & _ & Hc).
    split; [exact Hc|]. split.
    + intros Hno. apply last_index_none in Hno. congruence.
    + intros _. exists pre. exact Hs.
  - pose proof (proj1 (last_index_none _ _) Hk) as Hno.
    split; [exact Hno|]. split; [reflexivity|]. congruence.
Qed.

Lemma basename_is_last_component_witness :
  exists dir, "/etc/pgbouncer/..data" = dir ++ String "/" (basename "/etc/pgbouncer/..data").
Proof.
  apply (proj2 (proj2 (basename_is_last_component "/etc/pgbouncer/..data"))).
  reflexivity.
Defined.

Lemma split_not_nil sep s : split sep s <> [].
Proof.
  destruct s as [|c r]; cbn [split]; [discriminate|].
  destruct (Ascii.eqb c sep); [discriminate|].
  destruct (split sep r); discriminate.
Qed.

Lemma join_cons_char sep c h t :
  join sep (String c h :: t) = String c (join sep (h :: t)).
Proof.
  destruct t; reflexivity.
Qed.

(** X3: splitting loses nothing.  [split] never returns the empty list, no
    piece holds the separator, and joining the pieces with the separator
    gives the string back; so every character of [config_path] other than
    [;] reaches [os.path.isdir] in some path, empty pieces included. *)
Theorem join_split sep s :
  split sep s <> [] /\
  Forall (fun piece => contains sep piece = false) (split sep s) /\
  join sep (split sep s) = s.
Proof.
  split; [apply split_not_nil|].
  induction s as [|c r [IHf IHj]]; cbn [split].
  - split; [repeat constructor | reflexivity].
  - destruct (Ascii.eqb c sep) eqn:Hc.
    + apply Ascii.eqb_eq in Hc. subst c. split.
      * constructor; [reflexivity | exact IHf].
      * pose proof (split_not_nil sep r) as Hne.
        destruct (split sep r) as [|h t]; [contradiction|].
        change (String sep (join sep (h :: t)) = String sep r).
        now rewrite IHj.
    + pose proof (split_not_nil sep r) as Hne.
      destruct (split sep r) as [|h t]; [contradiction|]. split.
      * inversion IHf as [|? ? Hh Ht]; subst.
        constructor; [|exact Ht]. cbn [contains]. now rewrite Hc, Hh.
      * rewrite join_cons_char. now rewrite IHj.
Qed.

Lemma split_free sep x :
  contains sep x = false -> split sep x = [x].
Proof.
  induction x as [|c r IH]; cbn [contains split]; [reflexivity|].
  intros H. apply orb_false_iff in H. destruct H as [Hc Hr].
  rewrite Hc, (IH Hr). reflexivity.
Qed.

Lemma split_free_app sep x rest :
  contains sep x = false ->
  split sep (x ++ String sep rest) = x :: split sep rest.
Proof.
  induction x as [|c r IH]; cbn [contains append split].
  - intros _. now rewrite Ascii.eqb_refl.
  - intros H. apply orb_false_iff in H. destruct H as [Hc Hr].
    rewrite Hc, (IH Hr). reflexivity.
Qed.

(** X4: a list of paths written with [;] between them is read back as it
    was: for a non-empty list of pieces none of which holds the separator,
    splitting their join returns the pieces, in order and with
    duplicates. *)
Theorem split_join sep pieces :
  pieces <> [] ->
  Forall (fun piece => contains sep piece = false) pieces ->
  split sep (join sep pieces) = pieces.
Proof.
  intros Hne Hfree. induction Hfree as [|x rest Hx Hrest IH]; [contradiction|].
  destruct rest as [|y rest'].
  - cbn [join]. now apply split_free.
  - change (join sep (x :: y :: rest')) with (x ++ String sep (join sep (y :: rest'))).
    rewrite (split_free_app _ _ _ Hx). f_equal. apply IH. discriminate.
Qed.

Lemma split_join_witness :
  split ";" (join ";" ["/etc/pgbouncer"; "/etc/userlist"; "/etc/pgbouncer"]) =
    ["/etc/pgbouncer"; "/etc/userlist"; "/etc/pgbouncer"].
Proof.
  apply split_join; [discriminate | repeat constructor].
Defined.

(** ** More on the handler *)

(** X5: with a negative timeout the handler fails on an event that passes
    the filter: after the CREATE line, [time.sleep] raises its ValueError,
    which leaves [on_created]; the reload is not invoked, nothing is
    connected to and the world is as before. *)
Theorem negative_timeout_raises E self ev w :
  qualifying ev = true -> timeout self < 0 ->
  out (on_created E self ev tt w) = Raise sleep_error /\
  after (on_created E self ev tt w) = w /\
  actions (emitted (on_created E self ev tt w)) =
    [ create_log ev; Call (time_sleep (timeout self)) (Some sleep_error) ] /\
  reload_calls (emitted (on_created E self ev tt w)) = 0%nat /\
  connect_attempts (emitted (on_created E self ev tt w)) = 0%nat.
Proof.
  intros Hq Ht. rewrite (on_created_negative E self ev w Hq Ht).
  now repeat split.
Qed.

Lemma negative_timeout_raises_witness :
  out (on_created calm_env
         (init "localhost" (PyInt 6432) "pgbouncer" "secret" None (Some (-5)))
         marker_event tt world0) = Raise sleep_error.
Proof.
  apply (negative_timeout_raises calm_env
           (init "localhost" (PyInt 6432) "pgbouncer" "secret" None (Some (-5)))
           marker_event world0 eq_refl).
  cbn. lia.
Defined.

(** X6: with a negative timeout the observer's thread never reloads: over
    any events it makes no connection attempt and leaves the world as it
    was, and it ends with the ValueError as soon as one event passes the
    filter, returning normally only when none does. *)
Theorem negative_timeout_never_reloads E self events w :
  timeout self < 0 ->
  connect_attempts (emitted (dispatch_events E self events tt w)) = 0%nat /\
  reload_calls (emitted (dispatch_events E self events tt w)) = 0%nat /\
  after (dispatch_events E self events tt w) = w /\
  out (dispatch_events E self events tt w) =
    (if Nat.eqb (triggering events) 0 then Ret tt else Raise sleep_error).
Proof.
  intros Ht. unfold dispatch_events.
  induction events as [|ev events IH]; cbn [for_each].
  - now repeat split.
  - rewrite triggering_cons. unfold bind.
    destruct (triggers ev) eqn:Hq.
    + assert (Hd : dispatch E self ev tt w = on_created E self ev tt w).
      { unfold dispatch. unfold triggers in Hq. now destruct (event_type ev). }
      assert (Hqual : qualifying ev = true).
      { unfold triggers in Hq. now destruct (event_type ev). }
      rewrite Hd, (on_created_negative E self ev w Hqual Ht).
      now repeat split.
    + destruct (dispatch_quiet E self ev w Hq) as (Ho & Hw & Hf).
      destruct (dispatch E self ev tt w) as [o [] w1 tr1].
      cbn [out after emitted] in *. subst o w1.
      destruct IH as (Ha & Hr & Hafter & Hout).
      destruct (for_each events (dispatch E self) tt w) as [o2 [] w2 tr2].
      cbn [out after emitted] in *.
      assert (Hquiet : connect_attempts tr1 = 0%nat /\ reload_calls tr1 = 0%nat).
      { unfold connect_attempts, reload_calls, count, actions.
        clear -Hf. induction Hf as [|[t a] tr [Hc Hs] _ [IHa IHr]]; [now split|].
        cbn [map snd filter] in *. rewrite Hs. split; [|exact IHr].
        destruct a as [|[] ?]; try discriminate; cbn; exact IHa. }
      destruct Hquiet as (Hqa & Hqr).
      unfold connect_attempts, reload_calls in *.
      rewrite !count_app, Hqa, Hqr, Ha, Hr.
      now repeat split.
Qed.

Lemma negative_timeout_never_reloads_witness :
  out (dispatch_events calm_env
         (init "localhost" (PyInt 6432) "pgbouncer" "secret" None (Some (-5)))
         [plain_event; marker_event; marker_event] tt world0) = Raise sleep_error.
Proof.
  assert (Ht : timeout (init "localhost" (PyInt 6432) "pgbouncer" "secret" None
                          (Some (-5))) < 0) by (cbn; lia).
  exact (proj2 (proj2 (proj2 (negative_timeout_never_reloads calm_env _
           [plain_event; marker_event; marker_event] world0 Ht)))).
Defined.

(** X7: when the connection cannot be opened the reload does three things
    and no more: it logs its start, tries to connect and logs the failure.
    Nothing is closed, the success line is not logged, and the set of open
    connections is untouched. *)
Theorem failed_connect_is_only_logged E self l w f :
  db_fault E (next_conn w) OpConnect = Some f ->
  out (pgbouncer_reload E self l w) = Ret tt /\
  actions (emitted (pgbouncer_reload E self l w)) =
    [ Log DEBUG "Pgbouncer graceful reload starting...";
      Call (psycopg2_connect (dsn_of self)) (Some (exn_of_fault f));
      failure_log f ] /\
  open_conns (after (pgbouncer_reload E self l w)) = open_conns w /\
  ~ In success_log (actions (emitted (pgbouncer_reload E self l w))).
Proof.
  intros Hc. unfold failure_log, success_log, dsn_of.
  unfold_reload. rewrite Hc. destruct f; cbn.
  all: repeat split; intros [H|[H|[H|[]]]]; discriminate.
Qed.

Lemma failed_connect_is_only_logged_witness :
  ~ In success_log
      (actions (emitted (pgbouncer_reload flaky_env handler0 no_locals
                           {| clock := 0; next_conn := 1; open_conns := [];
                              watches := []; observing := false |}))).
Proof.
  apply (failed_connect_is_only_logged flaky_env handler0 no_locals
           {| clock := 0; next_conn := 1; open_conns := [];
              watches := []; observing := false |}
           (DriverError "connection refused") eq_refl).
Defined.

(** X8: the success line is logged exactly when the connection was opened:
    it says that a connection was closed, not that the command went
    through. *)
Theorem success_log_iff_connected E self l w :
  In success_log (actions (emitted (pgbouncer_reload E self l w))) <->
  db_fault E (next_conn w) OpConnect = None.
Proof.
  unfold success_log. unfold_reload. fault_cases E w.
  all: split; [intros H | intros H; try discriminate H].
  all: try reflexivity.
  all: try (repeat (destruct H as [H|H]; [discriminate|]); contradiction).
  all: cbn; tauto.
Qed.

(** X9: [RELOAD;] is sent at most once per reload, on the connection just
    opened, and exactly when connecting, setting the isolation level and
    opening the cursor all succeeded; the commit is attempted exactly when
    the command itself succeeded as well.  No other statement is ever
    executed. *)
Theorem reload_command_is_sent_once E self l w :
  count is_execute (emitted (pgbouncer_reload E self l w)) =
    (if succeeds E (next_conn w) OpConnect
        && succeeds E (next_conn w) OpSetIsolation
        && succeeds E (next_conn w) OpCursor then 1 else 0)%nat /\
  count is_commit (emitted (pgbouncer_reload E self l w)) =
    (if succeeds E (next_conn w) OpConnect
        && succeeds E (next_conn w) OpSetIsolation
        && succeeds E (next_conn w) OpCursor
        && succeeds E (next_conn w) OpExecute then 1 else 0)%nat /\
  (forall conn sql err,
     In (Call (cursor_execute conn sql) err)
        (actions (emitted (pgbouncer_reload E self l w))) ->
     conn = next_conn w /\ sql = "RELOAD;").
Proof.
  unfold succeeds. unfold_reload. fault_cases E w.
  all: split; [reflexivity | split; [reflexivity|]].
  all: intros conn sql err H; cbn in H.
  all: repeat (destruct H as [H|H];
               [first [discriminate H | (injection H as <- <- <-; now split)]|]).
  all: contradiction.
Qed.

Lemma pgbouncer_reload_open_conns E self l w :
  ~ In (next_conn w) (open_conns w) ->
  open_conns (after (pgbouncer_reload E self l w)) = open_conns w.
Proof.
  intros Hfresh. unfold_reload. fault_cases E w.
  all: try reflexivity.
  all: destruct (Nat.eq_dec (next_conn w) (next_conn w)) as [_|Hne];
         [now apply notin_remove | contradiction].
Qed.

Lemma dispatch_open_conns E self ev w :
  fresh_conns w ->
  open_conns (after (dispatch E self ev tt w)) = open_conns w /\
  fresh_conns (after (dispatch E self ev tt w)).
Proof.
  intros Hfresh.
  assert (Hnot : forall t, ~ In (next_conn w) (open_conns (elapse t w))).
  { intros t Hin. apply Hfresh in Hin. lia. }
  destruct (triggers ev) eqn:Hq.
  - assert (Hd : dispatch E self ev tt w = on_created E self ev tt w).
    { unfold dispatch. unfold triggers in Hq. now destruct (event_type ev). }
    assert (Hqual : qualifying ev = true).
    { unfold triggers in Hq. now destruct (event_type ev). }
    rewrite Hd. destruct (Z.lt_ge_cases (timeout self) 0) as [Hneg|Hpos].
    + rewrite (on_created_negative E self ev w Hqual Hneg). now split.
    + rewrite (on_created_fire E self ev w Hqual Hpos).
      pose proof (pgbouncer_reload_open_conns E self no_locals
                    (elapse (timeout self) w) (Hnot _)) as Ho.
      pose proof (pgbouncer_reload_world E self no_locals
                    (elapse (timeout self) w)) as (_ & Hn & _).
      destruct (pgbouncer_reload E self no_locals (elapse (timeout self) w))
        as [o l1 w1 tr].
      cbn [after elapse open_conns next_conn] in *.
      split; [exact Ho|].
      intros c Hin. rewrite Ho in Hin. apply Hfresh in Hin. rewrite Hn. lia.
  - destruct (dispatch_quiet E self ev w Hq) as (_ & Hw & _).
    rewrite Hw. now split.
Qed.

(** X10: the handler leaks no connection.  From a world whose open
    connections were numbered in order, the observer's thread leaves the set
    of open connections exactly as it found it, over any events, any faults
    of the console and any timeout. *)
Theorem dispatch_leaks_no_connection E self events w :
  fresh_conns w ->
  open_conns (after (dispatch_events E self events tt w)) = open_conns w /\
  fresh_conns (after (dispatch_events E self events tt w)).
Proof.
  unfold dispatch_events. revert w.
  induction events as [|ev events IH]; intros w Hfresh; cbn [for_each].
  - now split.
  - unfold bind.
    destruct (dispatch_open_conns E self ev w Hfresh) as (Ho & Hf).
    destruct (dispatch E self ev tt w) as [[[]|e|] [] w1 tr1];
      cbn [after] in *; try (now split).
    destruct (IH w1 Hf) as (Ho2 & Hf2).
    destruct (for_each events (dispatch E self) tt w1) as [o2 [] w2 tr2].
    cbn [after] in *. split; [congruence | exact Hf2].
Qed.

Lemma dispatch_leaks_no_connection_witness :
  open_conns (after (dispatch_events flaky_env handler0
                       [marker_event; plain_event; marker_event; marker_event]
                       tt world0)) = [].
Proof.
  apply (dispatch_leaks_no_connection flaky_env handler0
           [marker_event; plain_event; marker_event; marker_event] world0).
  intros c [].
Defined.

(** ** What reaches the log *)

(** X11: the verbosity count opens the log level by level: errors are
    always shown, warnings from one [-v], information from two and debug
    lines from three; a count of zero or less shows errors only. *)
Theorem verbosity_opens_levels v lvl :
  isEnabledFor (loglvl v) lvl = true <->
  lvl = ERROR \/ (lvl = WARNING /\ 1 <= v) \/ (lvl = INFO /\ 2 <= v) \/
  (lvl = DEBUG /\ 3 <= v).
Proof.
  unfold isEnabledFor, loglvl. rewrite Z.gtb_ltb, Z.leb_le.
  destruct (Z.ltb_spec 0 v); destruct lvl; cbn [levelno]; split.
  all: try (intros [H'|[[H' ?]|[[H' ?]|[H' ?]]]]; try discriminate H'; lia).
  all: intros; try lia.
  all: first [ left; reflexivity
             | right; left; split; [reflexivity|lia]
             | right; right; left; split; [reflexivity|lia]
             | right; right; right; split; [reflexivity|lia] ].
Qed.

(** X12: run without [-v], a reload is silent unless it fails, and then it
    shows exactly one line, the error of the step that failed; the success
    line and the debug lines are filtered out. *)
Theorem default_verbosity_shows_errors_only E self l w v :
  v <= 0 ->
  shown v (emitted (pgbouncer_reload E self l w)) =
    match first_fault E (next_conn w) with
    | Some (_, f) => [failure_log f]
    | None => []
    end.
Proof.
  intros Hv. unfold shown, isEnabledFor, loglvl.
  rewrite Z.gtb_ltb. destruct (Z.ltb_spec 0 v) as [Hpos|_]; [lia|].
  unfold first_fault, first_fault_in, failure_log.
  unfold_reload. fault_cases E w; reflexivity.
Qed.

Lemma default_verbosity_shows_errors_only_witness :
  shown 0 (emitted (pgbouncer_reload flaky_env handler0 no_locals world0)) =
    [Log ERROR "Failed to RELOAD pgbouncer: server closed the connection"].
Proof.
  apply (default_verbosity_shows_errors_only flaky_env handler0 no_locals world0 0).
  lia.
Defined.

(** ** The main loop *)

Lemma idle_loop_interrupted E i : forall k fuel j0 w,
  (forall j, (j0 <= j < j0 + k)%nat -> interrupts E j = None) ->
  interrupts E (j0 + k)%nat = Some i ->
  (k < fuel)%nat ->
  out (idle_loop E fuel j0 tt w) = Raise (raised_by i) /\
  clock (after (idle_loop E fuel j0 tt w)) = clock w + Z.of_nat k /\
  next_conn (after (idle_loop E fuel j0 tt w)) = next_conn w /\
  open_conns (after (idle_loop E fuel j0 tt w)) = open_conns w /\
  watches (after (idle_loop E fuel j0 tt w)) = watches w /\
  observing (after (idle_loop E fuel j0 tt w)) = observing w /\
  actions (emitted (idle_loop E fuel j0 tt w)) =
    (repeat (Call (time_sleep 1) None) k
     ++ match i with
        | Signalled s => [signal_log s]
        | Interrupted => []
        end)%list.
Proof.
  induction k as [|k IH]; intros fuel j0 w Hquiet Hint Hfuel;
    (destruct fuel as [|fuel]; [lia|]); cbn [idle_loop].
  - rewrite Nat.add_0_r in Hint. unfold bind, idle_sleep. rewrite Hint.
    destruct i as [s|]; cbn; repeat split; lia.
  - unfold bind, idle_sleep. rewrite (Hquiet j0) by lia. cbn.
    destruct (IH fuel (S j0) (elapse 1 w)) as (Ho & Hc & Hn & Hop & Hw & Hb & Ha).
    { intros j Hj. apply Hquiet. lia. }
    { rewrite <- Hint. f_equal. lia. }
    { lia. }
    destruct (idle_loop E fuel (S j0) tt (elapse 1 w)) as [o [] w1 tr].
    cbn [out after emitted elapse clock next_conn open_conns watches observing] in *.
    subst o. unfold actions in *. cbn [map snd repeat app] in *. rewrite Ha.
    repeat split; try assumption. lia.
Qed.

(** X13: when the reload timeout does not convert to an integer, [run]
    fails at once with the ValueError of [int]: no path is looked at, the
    observer is neither scheduled nor started, and nothing is stopped or
    joined, as the [try] has not been entered. *)
Theorem bad_timeout_stops_run E a fuel w msg :
  int_value E (pgbouncer_reload_timeout a) = inr msg ->
  out (run E a fuel tt w) = Raise (Exn BuiltinException msg) /\
  after (run E a fuel tt w) = w /\
  emitted (run E a fuel tt w) = [].
Proof.
  intros Hint. unfold run, run_setup, int, bind, raise. rewrite Hint.
  now repeat split.
Qed.

Lemma bad_timeout_stops_run_witness :
  out (run calm_env
         {| verbose := 0; config_path := "/etc/pgbouncer";
            pgbouncer_host := "localhost"; pgbouncer_port := PyInt 6432;
            pgbouncer_user := "pgbouncer"; pgbouncer_password := "secret";
            pgbouncer_database := "pgbouncer";
            pgbouncer_reload_timeout := PyStr "soon"; json_log := false |}
         3 tt world0) =
    Raise (Exn BuiltinException "invalid literal for int() with base 10").
Proof.
  apply (bad_timeout_stops_run calm_env _ 3 world0
           "invalid literal for int() with base 10").
  reflexivity.
Defined.

Lemma run_interrupted E a fuel w t k i :
  int_value E (pgbouncer_reload_timeout a) = inl t ->
  (forall j, (j < k)%nat -> interrupts E j = None) ->
  interrupts E k = Some i ->
  (k < fuel)%nat ->
  out (run E a fuel tt w) =
    match i with
    | Signalled _ => Raise (Exn SystemExit "")
    | Interrupted => Ret tt
    end /\
  observing (after (run E a fuel tt w)) = false /\
  clock (after (run E a fuel tt w)) = clock w + Z.of_nat k /\
  watches (after (run E a fuel tt w)) =
    (watches w ++ filter (isdir E) (watch_paths a))%list /\
  actions (emitted (run E a fuel tt w)) =
    (setup_actions E a
     ++ repeat (Call (time_sleep 1) None) k
     ++ match i with
        | Signalled s => [signal_log s]
        | Interrupted => []
        end
     ++ [Call observer_stop None; Call observer_join None])%list.
Proof.
  intros Hint Hquiet Hi Hfuel. unfold run, bind.
  rewrite (run_setup_spec E a w t Hint).
  unfold try_finally, try_except.
  match goal with
  | |- context [idle_loop E fuel 0 tt ?w0] =>
      destruct (idle_loop_interrupted E i k fuel 0%nat w0)
        as (Ho & Hc & _ & _ & Hw & _ & Ha);
      [ intros j Hj; apply Hquiet; lia | exact Hi | exact Hfuel | ];
      destruct (idle_loop E fuel 0 tt w0) as [o [] w1 tr]
  end.
  cbn [out after emitted clock watches] in *. subst o.
  unfold setup_actions, actions, entry in *.
  destruct i as [s|]; cbn [raised_by cls isinstance_KeyboardInterrupt].
  - cbn. rewrite !map_app, Ha. unfold stamped. rewrite map_map. cbn [snd].
    rewrite map_id, <- !app_assoc. repeat split; assumption.
  - cbn. rewrite !map_app, Ha, app_nil_r. unfold stamped. rewrite map_map. cbn [snd].
    rewrite map_id, <- !app_assoc. repeat split; assumption.
Qed.

(** X14: a plain interrupt of the idle loop ends [run] normally.  The
    KeyboardInterrupt is swallowed, and the observer is stopped and then
    joined before [run] returns; until then the loop has only slept, one
    second at a time. *)
Theorem keyboard_interrupt_ends_run E a fuel w t k :
  int_value E (pgbouncer_reload_timeout a) = inl t ->
  (forall j, (j < k)%nat -> interrupts E j = None) ->
  interrupts E k = Some Interrupted ->
  (k < fuel)%nat ->
  out (run E a fuel tt w) = Ret tt /\
  observing (after (run E a fuel tt w)) = false /\
  clock (after (run E a fuel tt w)) = clock w + Z.of_nat k /\
  actions (emitted (run E a fuel tt w)) =
    (setup_actions E a
     ++ repeat (Call (time_sleep 1) None) k
     ++ [Call observer_stop None; Call observer_join None])%list.
Proof.
  intros Hint Hquiet Hi Hfuel.
  destruct (run_interrupted E a fuel w t k Interrupted Hint Hquiet Hi Hfuel)
    as (Ho & Hb & Hc & _ & Ha).
  now repeat split.
Qed.

Lemma keyboard_interrupt_ends_run_witness :
  out (run (signal_env 2 Interrupted) (args0 "/etc/pgbouncer") 5 tt world0) = Ret tt /\
  observing (after (run (signal_env 2 Interrupted) (args0 "/etc/pgbouncer") 5
                      tt world0)) = false.
Proof.
  destruct (keyboard_interrupt_ends_run (signal_env 2 Interrupted)
              (args0 "/etc/pgbouncer") 5 world0 10 2 eq_refl)
    as (Ho & Hb & _).
  - intros j Hj. cbn.
    destruct j as [|[|j]]; [reflexivity | reflexivity | lia].
  - reflexivity.
  - lia.
  - split; assumption.
Defined.

(** X15: SIGINT or SIGTERM during the idle loop shuts [run] down in order:
    the handler logs the signal by name and raises SystemExit; the [except
    KeyboardInterrupt] does not catch it, the [finally] stops and joins the
    observer, and the SystemExit then leaves [run]. *)
Theorem signal_shuts_down_in_order E a fuel w t k s :
  int_value E (pgbouncer_reload_timeout a) = inl t ->
  (forall j, (j < k)%nat -> interrupts E j = None) ->
  interrupts E k = Some (Signalled s) ->
  (k < fuel)%nat ->
  out (run E a fuel tt w) = Raise (Exn SystemExit "") /\
  observing (after (run E a fuel tt w)) = false /\
  actions (emitted (run E a fuel tt w)) =
    (setup_actions E a
     ++ repeat (Call (time_sleep 1) None) k
     ++ [signal_log s; Call observer_stop None; Call observer_join None])%list.
Proof.
  intros Hint Hquiet Hi Hfuel.
  destruct (run_interrupted E a fuel w t k (Signalled s) Hint Hquiet Hi Hfuel)
    as (Ho & Hb & _ & _ & Ha).
  now repeat split.
Qed.

Lemma signal_shuts_down_in_order_witness :
  out (run (signal_env 1 (Signalled SIGTERM)) (args0 "/etc/pgbouncer") 5 tt world0) =
    Raise (Exn SystemExit "") /\
  actions (emitted (run (signal_env 1 (Signalled SIGTERM)) (args0 "/etc/pgbouncer")
                      5 tt world0)) =
    [ Log INFO "Watching path: /etc/pgbouncer";
      Call (observer_schedule "/etc/pgbouncer" true) None;
      Call observer_start None;
      Log INFO "Entering event loop...";
      Call (time_sleep 1) None;
      Log INFO "Signal 'SIGTERM' received. Shutting down...";
      Call observer_stop None;
      Call observer_join None ].
Proof.
  destruct (signal_shuts_down_in_order (signal_env 1 (Signalled SIGTERM))
              (args0 "/etc/pgbouncer") 5 world0 10 1 SIGTERM eq_refl)
    as (Ho & _ & Ha).
  - intros j Hj. destruct j as [|j]; [reflexivity | lia].
  - reflexivity.
  - lia.
  - split; [exact Ho | exact Ha].
Defined.



Lemma pgbouncer_reload_head E self l w :
  exists err rest,
    actions (emitted (pgbouncer_reload E self l w)) =
      Log DEBUG "Pgbouncer graceful reload starting..."
        :: Call (psycopg2_connect (dsn_of self)) err :: rest.
Proof.
  unfold dsn_of. run_reload E w; do 2 eexists; reflexivity.
Qed.

(** X17: the handler [run] builds works with the settings it was given:
    once the timeout argument has converted, that integer is the handler's
    timeout, never the default, and every reload the handler performs
    connects with the user, password, host, port and database of the
    arguments. *)
Theorem run_handler_uses_args E a w t :
  int_value E (pgbouncer_reload_timeout a) = inl t ->
  exists handler,
    out (run_setup E a tt w) = Ret handler /\
    timeout handler = t /\
    dsn_of handler =
      {| dsn_user := pgbouncer_user a;
         dsn_password := pgbouncer_password a;
         dsn_host := pgbouncer_host a;
         dsn_port := pgbouncer_port a;
         dsn_database := pgbouncer_database a |} /\
    forall l w',
      exists err rest,
        actions (emitted (pgbouncer_reload E handler l w')) =
          Log DEBUG "Pgbouncer graceful reload starting..."
            :: Call (psycopg2_connect
                       {| dsn_user := pgbouncer_user a;
                          dsn_password := pgbouncer_password a;
                          dsn_host := pgbouncer_host a;
                          dsn_port := pgbouncer_port a;
                          dsn_database := pgbouncer_database a |}) err
            :: rest.
Proof.
  intros Hint. rewrite (run_setup_spec E a w t Hint).
  set (h := init (pgbouncer_host a) (pgbouncer_port a) (pgbouncer_user a)
              (pgbouncer_password a) (Some (pgbouncer_database a)) (Some t)).
  exists h. split; [reflexivity|]. split; [reflexivity|]. split; [reflexivity|].
  intros l w'.
  destruct (pgbouncer_reload_head E h l w') as (err & rest & Hhead).
  exists err, rest. exact Hhead.
Qed.

Lemma run_handler_uses_args_witness :
  exists handler,
    out (run_setup calm_env
           {| verbose := 0; config_path := "/etc/pgbouncer";
              pgbouncer_host := "db.internal"; pgbouncer_port := PyStr "6543";
              pgbouncer_user := "admin"; pgbouncer_password := "secret";
              pgbouncer_database := "console";
              pgbouncer_reload_timeout := PyInt (-5); json_log := false |}
           tt world0) = Ret handler /\
    timeout handler = -5 /\
    dsn_of handler =
      {| dsn_user := "admin"; dsn_password := "secret";
         dsn_host := "db.internal"; dsn_port := PyStr "6543";
         dsn_database := "console" |}.
Proof.
  destruct (run_handler_uses_args calm_env
              {| verbose := 0; config_path := "/etc/pgbouncer";
                 pgbouncer_host := "db.internal"; pgbouncer_port := PyStr "6543";
                 pgbouncer_user := "admin"; pgbouncer_password := "secret";
                 pgbouncer_database := "console";
                 pgbouncer_reload_timeout := PyInt (-5); json_log := false |}
              world0 (-5) eq_refl) as (h & Ho & Ht & Hd & _).
  exists h. repeat split; assumption.
Defined.
